(** * pychubby: the Action framework ([pychubby/actions.py])

    A shallow embedding of the action classes of [pychubby/actions.py] and
    the properties of its specification.

    Modelling conventions.
    - numpy floats are idealised as the real numbers [R] (exact arithmetic);
      a landmark array of shape [(N, 2)] is a [list point].
    - A Python [dict] is an association list in insertion order whose keys
      are pairwise distinct ([dict_wf]); iteration follows that order.
    - A raised exception is the left injection of [Result].
    - The collaborators that live outside [actions.py] (image, displacement
      field engine, reference space, landmark name table) are the fields of
      the class [Collaborators].
    - [ReferenceSpace] objects are mutable and referenced from the action
      objects; they live in a store ([World]) threaded through the calls. *)

From Stdlib Require Import Reals Lra ZArith.
From stdpp Require Import gmap strings list.

Local Open Scope Z_scope.

(** ** Exceptions *)

(** [IndexError]: numpy index out of bounds; [KeyError]: missing dict key;
    [ValueError]: numpy broadcasting failure; [TypeError]: a call that misses
    a required argument; [ShapeError]: the shape error of the warping engine
    named by the specification. *)
Inductive PyError : Type :=
  | IndexError
  | KeyError
  | ValueError
  | TypeError
  | ShapeError.

Definition Result (A : Type) : Type := (PyError + A)%type.

#[global] Instance Result_ret : MRet Result := fun _ a => inr a.
#[global] Instance Result_bind : MBind Result := fun _ _ f m =>
  match m with
  | inl e => inl e
  | inr a => f a
  end.

(** ** Points and arrays *)

Definition point : Type := (R * R)%type.

Definition padd (p q : point) : point := ((p.1 + q.1)%R, (p.2 + q.2)%R).
Definition psub (p q : point) : point := ((p.1 - q.1)%R, (p.2 - q.2)%R).
Definition pscale (p : point) (c : R) : point := ((p.1 * c)%R, (p.2 * c)%R).

(** numpy resolution of a Python integer index on an axis of length [n]:
    negative indices count from the end, anything else out of range raises. *)
Definition np_index (n : nat) (k : Z) : Result nat :=
  if bool_decide (0 <= k < Z.of_nat n) then inr (Z.to_nat k)
  else if bool_decide (- Z.of_nat n <= k < 0) then inr (Z.to_nat (k + Z.of_nat n))
  else inl IndexError.

(** [a[k]] on an array of rows. *)
Definition np_getitem {A} (a : list A) (k : Z) : Result A :=
  i ← np_index (length a) k;
  match a !! i with
  | Some x => inr x
  | None => inl IndexError
  end.

(** [a[k, 0] = v] and [a[k, 1] = v]. *)
Definition np_setitem_col0 (a : list point) (k : Z) (v : R) : Result (list point) :=
  i ← np_index (length a) k;
  inr (alter (fun p => (v, p.2)) i a).

Definition np_setitem_col1 (a : list point) (k : Z) (v : R) : Result (list point) :=
  i ← np_index (length a) k;
  inr (alter (fun p => (p.1, v)) i a).

(** [np.zeros((n, 2))]. *)
Definition np_zeros (n : nat) : list point := replicate n (0%R, 0%R).

(** [a + b] on arrays of shapes [(n, 2)] and [(m, 2)], with numpy
    broadcasting on the first axis. *)
Definition np_add (a b : list point) : Result (list point) :=
  if bool_decide (length a = length b) then inr (zip_with padd a b)
  else match a, b with
       | [p], _ => inr (map (padd p) b)
       | _, [q] => inr (map (fun p => padd p q) a)
       | _, _ => inl ValueError
       end.

(** ** Dictionaries *)

Definition dict (K V : Type) : Type := list (K * V).

Definition dict_keys {K V} (d : dict K V) : list K := d.*1.

Definition dict_wf {K V} (d : dict K V) : Prop := NoDup (dict_keys d).

Fixpoint dict_get {K V} `{EqDecision K} (d : dict K V) (k : K) : option V :=
  match d with
  | [] => None
  | (k', v) :: d' => if decide (k = k') then Some v else dict_get d' k
  end.

(** [d[k] = v]: an existing key keeps its position, a new one is appended. *)
Fixpoint dict_set {K V} `{EqDecision K} (d : dict K V) (k : K) (v : V) : dict K V :=
  match d with
  | [] => [(k, v)]
  | (k', v') :: d' =>
      if decide (k = k') then (k', v) :: d' else (k', v') :: dict_set d' k v
  end.

(** [for k, v in d.items(): s = body(s, k, v)], stopping at the first
    exception. *)
Fixpoint for_items {K V S} (body : S -> K -> V -> Result S) (d : dict K V) (s : S)
  : Result S :=
  match d with
  | [] => inr s
  | (k, v) :: d' => s' ← body s k v; for_items body d' s'
  end.

(** ** Values of keyword arguments *)

Inductive PyVal : Type :=
  | PyStr (s : string)
  | PyFloat (r : R)
  | PyBool (b : bool).

(** ** The face container and the collaborators *)

Record LandmarkFace (Img : Type) : Type := mkLandmarkFace {
  points : list point;
  img : Img
}.
Arguments mkLandmarkFace {Img} _ _.
Arguments points {Img} _.
Arguments img {Img} _.

(** A landmark is addressed by an integer index or by a symbolic name. *)
Inductive LandmarkKey : Type :=
  | ByIndex (k : Z)
  | ByName (s : string).

(** The parts of the package that [actions.py] imports:
    [pychubby.base.DisplacementField] ([interpolate] is the numerical core of
    [generate], [warp] the resampling), [pychubby.reference] (the state of a
    reference space object, [DefaultRS()], [estimate], [inp2ref], [ref2inp])
    and [pychubby.detect.LANDMARK_NAMES]. *)
Class Collaborators : Type := {
  Img : Type;
  Shape : Type;
  DF : Type;
  img_shape : Img -> Shape;
  interpolate : Shape -> list point -> list point -> bool -> gmap string PyVal -> DF;
  warp : DF -> Img -> Img;
  RS : Type;
  DefaultRS : RS;
  estimate : RS -> LandmarkFace Img -> RS;
  inp2ref : RS -> list point -> list point;
  ref2inp : RS -> list point -> list point;
  LANDMARK_NAMES : dict string Z
}.

Definition Face `{Collaborators} : Type := LandmarkFace Img.

(** The data model's invariant on faces: exactly 68 landmarks. *)
Definition face_wf `{Collaborators} (lf : Face) : Prop := length (points lf) = 68%nat.

(** Modelled from the spec: [LandmarkFace.__getitem__] of [pychubby/detect.py],
    which is not among the sources; the face container is "index-addressable
    by integer": [lf[i]] is [lf.points[i]]. *)
Definition lf_getitem `{Collaborators} (lf : Face) (i : Z) : Result point :=
  np_getitem (points lf) i.

(** Modelled from the spec: [DisplacementField.generate] of [pychubby/base.py],
    which is not among the sources.  The specification lets warp generation
    fail with a [ShapeError] when a points array passed to it does not have
    exactly 68 rows of 2 coordinates; otherwise it returns the field. *)
Definition DisplacementField_generate `{Collaborators} (shape : Shape)
    (old_points new_points : list point) (anchor_edges : bool)
    (interpolation_kwargs : gmap string PyVal) : Result DF :=
  if bool_decide (length old_points = 68%nat /\ length new_points = 68%nat)
  then inr (interpolate shape old_points new_points anchor_edges interpolation_kwargs)
  else inl ShapeError.

(** ** Action.pts2inst *)

(** Lines 62-63: the keyword arguments handed on to the engine. *)
Definition pts2inst_kwargs (interpolation_kwargs : gmap string PyVal)
  : gmap string PyVal :=
  if bool_decide (size interpolation_kwargs = 0%nat)
  then {[ "function"%string := PyStr "linear" ]}
  else interpolation_kwargs.

Definition pts2inst `{Collaborators} (new_points : list point) (lf : Face)
    (interpolation_kwargs : gmap string PyVal) : Result (Face * DF) :=
  let interpolation_kwargs := pts2inst_kwargs interpolation_kwargs in
  df ← DisplacementField_generate (img_shape (img lf)) (points lf) new_points
         true interpolation_kwargs;
  let new_img := warp df (img lf) in
  inr (mkLandmarkFace new_points new_img, df).

(** ** AbsoluteMove *)

Record AbsoluteMove : Type := mkAbsoluteMove {
  x_shifts : dict Z R;
  y_shifts : dict Z R
}.

(** [__init__]: [x_shifts or {}], [y_shifts or {}]. *)
Definition AbsoluteMove_init (x_shifts y_shifts : option (dict Z R)) : AbsoluteMove :=
  mkAbsoluteMove (default [] x_shifts) (default [] y_shifts).

(** Lines 118-125: the offsets array. *)
Definition AbsoluteMove_offsets (self : AbsoluteMove) : Result (list point) :=
  let offsets := np_zeros 68 in
  offsets ← for_items np_setitem_col0 (x_shifts self) offsets;
  for_items np_setitem_col1 (y_shifts self) offsets.

Definition AbsoluteMove_perform `{Collaborators} (self : AbsoluteMove) (lf : Face)
  : Result (Face * DF) :=
  offsets ← AbsoluteMove_offsets self;
  new_points ← np_add (points lf) offsets;
  pts2inst new_points lf ∅.

(** ** Reference space objects and the store *)

(** A store of reference space objects, with the log of the [estimate] calls
    made so far (object, face). *)
Record World `{Collaborators} : Type := mkWorld {
  rs_heap : gmap positive RS;
  estimate_log : list (positive * Face)
}.
Arguments mkWorld {_} _ _.

(** The state of the object behind a reference.  References held by actions
    come from [Lambda_init] or [LinearTransform_init] or from the caller and
    are allocated; the default only makes the function total. *)
Definition rs_state `{Collaborators} (w : World) (l : positive) : RS :=
  default DefaultRS (rs_heap w !! l).

(** [DefaultRS()]: a new object. *)
Definition rs_new `{Collaborators} (w : World) : positive * World :=
  let l := fresh (dom (rs_heap w)) in
  (l, mkWorld (<[l := DefaultRS]> (rs_heap w)) (estimate_log w)).

(** [reference_space or DefaultRS()]. *)
Definition rs_or_default `{Collaborators} (reference_space : option positive)
    (w : World) : positive * World :=
  match reference_space with
  | Some l => (l, w)
  | None => rs_new w
  end.

(** [rs.estimate(lf)]: refits the object in place. *)
Definition rs_estimate `{Collaborators} (l : positive) (lf : Face) (w : World) : World :=
  mkWorld (<[l := estimate (rs_state w l) lf]> (rs_heap w))
          (estimate_log w ++ [(l, lf)]).

(** ** Lambda *)

Definition LandmarkSpec : Type := dict LandmarkKey (R * R).

Record Lambda : Type := mkLambda {
  Lambda_scale : R;
  Lambda_specs : LandmarkSpec;
  Lambda_reference_space : positive
}.

Definition Lambda_init `{Collaborators} (scale : R) (specs : LandmarkSpec)
    (reference_space : option positive) (w : World) : Lambda * World :=
  let '(l, w) := rs_or_default reference_space w in
  (mkLambda scale specs l, w).

(** Line 184: [k if isinstance(k, int) else LANDMARK_NAMES[k]]. *)
Definition resolve_key `{Collaborators} (k : LandmarkKey) : Result Z :=
  match k with
  | ByIndex i => inr i
  | ByName s =>
      match dict_get LANDMARK_NAMES s with
      | Some i => inr i
      | None => inl KeyError
      end
  end.

(** [np.radians]. *)
Definition radians (a : R) : R := (a * PI / 180)%R.

(** Line 186: the shift in the reference space. *)
Definition ref_shift_of (scale angle prop : R) : point :=
  pscale (pscale (cos (radians angle), sin (radians angle)) prop) scale.

(** Lines 184-191: one iteration of the loop over [specs]. *)
Definition Lambda_step `{Collaborators} (scale : R) (rs : RS) (lf : Face)
    (ref_points : list point) (shifts : dict Z R * dict Z R)
    (k : LandmarkKey) (v : R * R) : Result (dict Z R * dict Z R) :=
  let '(angle, prop) := v in
  key ← resolve_key k;
  let ref_shift := ref_shift_of scale angle prop in
  ref_point ← np_getitem ref_points key;
  new_inp_point ← np_getitem (ref2inp rs [padd ref_point ref_shift]) 0;
  old_point ← np_getitem (points lf) key;
  let shift := psub new_inp_point old_point in
  inr (dict_set shifts.1 key shift.1, dict_set shifts.2 key shift.2).

(** Lines 177-191: the shift maps handed to [AbsoluteMove]. *)
Definition Lambda_shifts `{Collaborators} (scale : R) (specs : LandmarkSpec)
    (rs : RS) (lf : Face) : Result (dict Z R * dict Z R) :=
  let ref_points := inp2ref rs (points lf) in
  for_items (Lambda_step scale rs lf ref_points) specs ([], []).

Definition Lambda_perform `{Collaborators} (self : Lambda) (lf : Face) (w : World)
  : Result (Face * DF) * World :=
  let w := rs_estimate (Lambda_reference_space self) lf w in
  let rs := rs_state w (Lambda_reference_space self) in
  match Lambda_shifts (Lambda_scale self) (Lambda_specs self) rs lf with
  | inl e => (inl e, w)
  | inr (x_shifts, y_shifts) =>
      let am := AbsoluteMove_init (Some x_shifts) (Some y_shifts) in
      (AbsoluteMove_perform am lf, w)
  end.

(** ** Preset actions *)

Record Chubbify : Type := mkChubbify { Chubbify_scale : R }.

(** [__init__(self, scale=0.2)]; [None] stands for an omitted argument. *)
Definition Chubbify_init (scale : option R) : Result Chubbify :=
  inr (mkChubbify (default (2 / 10)%R scale)).

Definition Chubbify_specs : LandmarkSpec :=
  [ (ByName "LOWER_TEMPLE_L", (170, 4 / 10));
    (ByName "LOWER_TEMPLE_R", (10, 4 / 10));
    (ByName "UPPERMOST_CHEEK_L", (160, 1));
    (ByName "UPPERMOST_CHEEK_R", (20, 1));
    (ByName "UPPER_CHEEK_L", (150, 1));
    (ByName "UPPER_CHEEK_R", (30, 1));
    (ByName "LOWER_CHEEK_L", (140, 1));
    (ByName "LOWER_CHEEK_R", (40, 1));
    (ByName "LOWERMOST_CHEEK_L", (130, 8 / 10));
    (ByName "LOWERMOST_CHEEK_R", (50, 8 / 10));
    (ByName "CHIN_L", (120, 7 / 10));
    (ByName "CHIN_R", (60, 7 / 10));
    (ByName "CHIN", (90, 7 / 10)) ]%R.

Definition Chubbify_perform `{Collaborators} (self : Chubbify) (lf : Face) (w : World)
  : Result (Face * DF) * World :=
  let specs := Chubbify_specs in
  let '(lam, w) := Lambda_init (Chubbify_scale self) specs None w in
  Lambda_perform lam lf w.

Record OpenEyes : Type := mkOpenEyes { OpenEyes_scale : R }.

(** [__init__(self, scale)]: the argument is required. *)
Definition OpenEyes_init (scale : option R) : Result OpenEyes :=
  match scale with
  | Some s => inr (mkOpenEyes s)
  | None => inl TypeError
  end.

Definition OpenEyes_specs : LandmarkSpec :=
  [ (ByName "INNER_EYE_LID_R", (-100, 8 / 10));
    (ByName "OUTER_EYE_LID_R", (-80, 1));
    (ByName "INNER_EYE_BOTTOM_R", (100, 5 / 10));
    (ByName "OUTER_EYE_BOTTOM_R", (80, 5 / 10));
    (ByName "INNERMOST_EYEBROW_R", (-100, 1));
    (ByName "INNER_EYEBROW_R", (-100, 1));
    (ByName "MIDDLE_EYEBROW_R", (-100, 1));
    (ByName "OUTER_EYEBROW_R", (-100, 1));
    (ByName "OUTERMOST_EYEBROW_R", (-100, 1));
    (ByName "INNER_EYE_LID_L", (-80, 8 / 10));
    (ByName "OUTER_EYE_LID_L", (-100, 1));
    (ByName "INNER_EYE_BOTTOM_L", (80, 5 / 10));
    (ByName "OUTER_EYE_BOTTOM_L", (10, 5 / 10));
    (ByName "INNERMOST_EYEBROW_L", (-80, 1));
    (ByName "INNER_EYEBROW_L", (-80, 1));
    (ByName "MIDDLE_EYEBROW_L", (-80, 1));
    (ByName "OUTER_EYEBROW_L", (-80, 1));
    (ByName "OUTERMOST_EYEBROW_L", (-80, 1)) ]%R.

Definition OpenEyes_perform `{Collaborators} (self : OpenEyes) (lf : Face) (w : World)
  : Result (Face * DF) * World :=
  let specs := OpenEyes_specs in
  let '(lam, w) := Lambda_init (OpenEyes_scale self) specs None w in
  Lambda_perform lam lf w.

Record Smile : Type := mkSmile { Smile_scale : R }.

(** [__init__(self, scale=0.1)]. *)
Definition Smile_init (scale : option R) : Result Smile :=
  inr (mkSmile (default (1 / 10)%R scale)).

Definition Smile_specs : LandmarkSpec :=
  [ (ByName "OUTSIDE_MOUTH_CORNER_L", (-110, 1));
    (ByName "OUTSIDE_MOUTH_CORNER_R", (-70, 1));
    (ByName "INSIDE_MOUTH_CORNER_L", (-110, 8 / 10));
    (ByName "INSIDE_MOUTH_CORNER_R", (-70, 8 / 10));
    (ByName "OUTER_OUTSIDE_UPPER_LIP_L", (-100, 3 / 10));
    (ByName "OUTER_OUTSIDE_UPPER_LIP_R", (-80, 3 / 10)) ]%R.

Definition Smile_perform `{Collaborators} (self : Smile) (lf : Face) (w : World)
  : Result (Face * DF) * World :=
  let specs := Smile_specs in
  let '(lam, w) := Lambda_init (Smile_scale self) specs None w in
  Lambda_perform lam lf w.

(** ** LinearTransform *)

(** [skimage.transform.AffineTransform]: the homogeneous matrix built from
    the implicit parameters, by rows. *)
Definition matrix3 : Type := ((R * R * R) * (R * R * R) * (R * R * R))%type.

Definition AffineTransform_init (scale : R * R) (rotation shear : R)
    (translation : R * R) : matrix3 :=
  let '(sx, sy) := scale in
  ((sx * cos rotation, - sy * sin (rotation + shear), translation.1),
   (sx * sin rotation, sy * cos (rotation + shear), translation.2),
   (0, 0, 1))%R.

(** [np.finfo(float).eps]. *)
Definition float_eps : R := (/ 2 ^ 52)%R.

(** One row of [src.T @ matrix.T], rescaled by its homogeneous coordinate;
    an exactly zero coordinate is replaced by [eps] first. *)
Definition apply_mat (m : matrix3) (p : point) : point :=
  let '((a0, a1, a2), (b0, b1, b2), (c0, c1, c2)) := m in
  let X := (p.1 * a0 + p.2 * a1 + 1 * a2)%R in
  let Y := (p.1 * b0 + p.2 * b1 + 1 * b2)%R in
  let W := (p.1 * c0 + p.2 * c1 + 1 * c2)%R in
  let W := if Req_dec_T W 0 then float_eps else W in
  (X / W, Y / W)%R.

(** [tform(coords)]. *)
Definition AffineTransform_call (m : matrix3) (coords : list point) : list point :=
  map (apply_mat m) coords.

Record LinearTransform : Type := mkLinearTransform {
  scale_x : R;
  scale_y : R;
  rotation : R;
  shear : R;
  translation_x : R;
  translation_y : R;
  LinearTransform_reference_space : positive
}.

(** [__init__(self, scale_x=1, scale_y=1, rotation=0, shear=0,
    translation_x=0, translation_y=0, reference_space=None)]. *)
Definition LinearTransform_init `{Collaborators}
    (scale_x scale_y rotation shear translation_x translation_y : option R)
    (reference_space : option positive) (w : World) : LinearTransform * World :=
  let '(l, w) := rs_or_default reference_space w in
  (mkLinearTransform (default 1%R scale_x) (default 1%R scale_y)
     (default 0%R rotation) (default 0%R shear)
     (default 0%R translation_x) (default 0%R translation_y) l, w).

(** [range(n)]. *)
Definition py_range (n : nat) : list Z := Z.of_nat <$> seq 0 n.

(** [{i: f(i) for i in keys}], built on top of [d]. *)
Fixpoint dict_comprehension {V} (f : Z -> Result V) (keys : list Z) (d : dict Z V)
  : Result (dict Z V) :=
  match keys with
  | [] => inr d
  | i :: keys' => v ← f i; dict_comprehension f keys' (dict_set d i v)
  end.

(** Lines 301-313: the shift maps handed to [AbsoluteMove]. *)
Definition LinearTransform_shifts `{Collaborators} (self : LinearTransform)
    (rs : RS) (lf : Face) : Result (dict Z R * dict Z R) :=
  let ref_points := inp2ref rs (points lf) in
  let tform := AffineTransform_init (scale_x self, scale_y self) (rotation self)
                 (shear self) (translation_x self, translation_y self) in
  let tformed_ref_points := AffineTransform_call tform ref_points in
  let tformed_inp_points := ref2inp rs tformed_ref_points in
  x_shifts ← dict_comprehension
    (fun i => t ← np_getitem tformed_inp_points i; p ← lf_getitem lf i; inr (psub t p).1)
    (py_range 68) [];
  y_shifts ← dict_comprehension
    (fun i => t ← np_getitem tformed_inp_points i; p ← lf_getitem lf i; inr (psub t p).2)
    (py_range 68) [];
  inr (x_shifts, y_shifts).

Definition LinearTransform_perform `{Collaborators} (self : LinearTransform)
    (lf : Face) (w : World) : Result (Face * DF) * World :=
  let w := rs_estimate (LinearTransform_reference_space self) lf w in
  let rs := rs_state w (LinearTransform_reference_space self) in
  match LinearTransform_shifts self rs lf with
  | inl e => (inl e, w)
  | inr (x_shifts, y_shifts) =>
      (AbsoluteMove_perform (AbsoluteMove_init (Some x_shifts) (Some y_shifts)) lf, w)
  end.

(** ** Vocabulary of the properties *)

(** The two assignment loops of [AbsoluteMove.perform] differ in the column
    they write. *)
Definition np_setitem_with (f : R -> point -> point) (a : list point) (k : Z) (v : R)
  : Result (list point) :=
  i ← np_index (length a) k; inr (alter (f v) i a).

(** The offset of landmark [i] according to a shift map: absent means 0. *)
Definition shift_of (m : dict Z R) (i : nat) : R := default 0%R (dict_get m (Z.of_nat i)).

(** All keys of a shift map are landmark indices. *)
Definition keys_in_range (m : dict Z R) : Prop :=
  forall k, k ∈ dict_keys m -> 0 <= k <= 67.

(** An index that numpy rejects on an axis of length [n]. *)
Definition out_of_range (n : nat) (k : Z) : Prop := k < - Z.of_nat n \/ Z.of_nat n <= k.

(** A reference space keeps the number of rows of the arrays it maps. *)
Definition shape_preserving (f : list point -> list point) : Prop :=
  forall ps, length (f ps) = length ps.

(** The pixel shift of landmark [i] as the specification words it:
    [toInput(toReference(face.points)[i] + (cos, sin) * proportion * scale)
     - face.points[i]]. *)
Definition spec_pixel_shift `{Collaborators} (rs : RS) (lf : Face) (scale : R)
    (i : nat) (angle prop : R) : option point :=
  ref_point ← inp2ref rs (points lf) !! i;
  mapped_back ← ref2inp rs
    [padd ref_point
       (pscale (pscale (cos (radians angle), sin (radians angle)) prop) scale)] !! 0%nat;
  old_point ← points lf !! i;
  Some (psub mapped_back old_point).

(** The last entry of [specs] that resolves to landmark [i]. *)
Fixpoint entry_for `{Collaborators} (specs : LandmarkSpec) (i : Z) : option (R * R) :=
  match specs with
  | [] => None
  | (k, v) :: specs' =>
      match entry_for specs' i with
      | Some v' => Some v'
      | None =>
          match resolve_key k with
          | inr j => if decide (j = i) then Some v else None
          | inl _ => None
          end
      end
  end.

(** Every key of [specs] resolves, to a landmark index. *)
Definition specs_resolve `{Collaborators} (specs : LandmarkSpec) : Prop :=
  forall k v, (k, v) ∈ specs -> exists i, resolve_key k = inr i /\ 0 <= i <= 67.

(** Euclidean norm. *)
Definition norm (p : point) : R := sqrt (Rsqr p.1 + Rsqr p.2).

(** Two points agree within [eps] in both coordinates. *)
Definition close_to (eps : R) (p q : point) : Prop :=
  (Rabs (q.1 - p.1) <= eps)%R /\ (Rabs (q.2 - p.2) <= eps)%R.

(** Row [i] of an array, the origin when there is none. *)
Definition row_at (a : list point) (i : Z) : point :=
  match a !! Z.to_nat i with
  | Some x => x
  | None => (0, 0)%R
  end.

(** The landmark that numpy addresses with key [k] on 68 rows. *)
Definition wrap_key (k : Z) : Z := if bool_decide (k < 0) then k + 68 else k.

Definition wrap_keys (m : dict Z R) : dict Z R :=
  (fun kv => (wrap_key kv.1, kv.2)) <$> m.

(** Where [Lambda] puts landmark [i] for the entry [(angle, prop)]:
    [toInput(toReference(points)[i] + shift)], the first row of the result. *)
Definition mapped_back `{Collaborators} (rs : RS) (lf : Face) (scale : R)
    (i : nat) (angle prop : R) : option point :=
  ref_point ← inp2ref rs (points lf) !! i;
  ref2inp rs [padd ref_point (ref_shift_of scale angle prop)] !! 0%nat.


(** The largest proportion of a spec is 1. *)
Definition proportions_normalised (specs : LandmarkSpec) : Prop :=
  Forall (fun kv => (0 <= kv.2.2 <= 1)%R) specs /\ Exists (fun kv => kv.2.2 = 1%R) specs.

(** ** A small instance of the collaborators

    Used to run the actions on concrete inputs: the image is a number, the
    field records the correspondences it was generated from, and the
    reference space is the frame whose origin is the first landmark of the
    face it was fitted to. *)
Module Toy.

Definition fit_origin (rs : point) (lf : LandmarkFace nat) : point :=
  match points lf with
  | p :: _ => p
  | [] => (0, 0)%R
  end.

Definition names : dict string Z :=
  [ ("CHIN"%string, 8); ("OUTSIDE_MOUTH_CORNER_L"%string, 48) ].

Definition collaborators : Collaborators := {|
  Img := nat;
  Shape := nat;
  DF := (list point * list point * gmap string PyVal)%type;
  img_shape := fun i => i;
  interpolate := fun _ old new _ kw => (old, new, kw);
  warp := fun _ i => i;
  RS := point;
  DefaultRS := (0, 0)%R;
  estimate := fit_origin;
  inp2ref := fun rs ps => map (fun p => psub p rs) ps;
  ref2inp := fun rs ps => map (fun p => padd p rs) ps;
  LANDMARK_NAMES := names
|}.

(** Landmark [i] at [(i, c)]. *)
Definition face (c : R) : LandmarkFace nat :=
  mkLandmarkFace (map (fun i => (INR i, c)) (seq 0 68)) 7%nat.

Definition world0 : @World collaborators := mkWorld ∅ [].

(** A store with one reference space object, not fitted yet. *)
Definition world1 : @World collaborators := mkWorld {[ 1%positive := (0, 0)%R ]} [].

(** [Lambda(1, {3: (0, 1), 'CHIN': (90, 0.5)}, rs)] on the object above. *)
Definition lambda : Lambda :=
  mkLambda 1 [ (ByIndex 3, (0, 1)); (ByName "CHIN", (90, 1 / 2)) ]%R 1%positive.



End Toy.

(** * Properties *)

(** ** Index resolution and the assignment loops *)

Lemma np_index_nonneg (n : nat) (k : Z) :
  0 <= k < Z.of_nat n -> np_index n k = inr (Z.to_nat k).
Proof. intros Hk. unfold np_index. by rewrite bool_decide_eq_true_2. Qed.

Lemma np_index_negative (n : nat) (k : Z) :
  - Z.of_nat n <= k < 0 -> np_index n k = inr (Z.to_nat (k + Z.of_nat n)).
Proof.
  intros Hk. unfold np_index.
  rewrite bool_decide_eq_false_2 by lia. by rewrite bool_decide_eq_true_2.
Qed.

Lemma np_index_out_of_range (n : nat) (k : Z) :
  k < - Z.of_nat n \/ Z.of_nat n <= k -> np_index n k = inl IndexError.
Proof.
  intros Hk. unfold np_index.
  rewrite bool_decide_eq_false_2 by lia. by rewrite bool_decide_eq_false_2 by lia.
Qed.

Lemma np_index_inr (n : nat) (k : Z) (i : nat) :
  np_index n k = inr i ->
  (i < n)%nat /\ (- Z.of_nat n <= k < Z.of_nat n) /\
  (Z.of_nat i = k \/ Z.of_nat i = k + Z.of_nat n).
Proof.
  unfold np_index. repeat case_bool_decide; intros [= <-]; lia.
Qed.

Lemma np_index_inl (n : nat) (k : Z) (e : PyError) :
  np_index n k = inl e -> e = IndexError /\ (k < - Z.of_nat n \/ Z.of_nat n <= k).
Proof.
  unfold np_index. repeat case_bool_decide; intros [= <-]. split; [done | lia].
Qed.

Lemma np_getitem_nonneg {A} (a : list A) (i : nat) (x : A) :
  a !! i = Some x -> np_getitem a (Z.of_nat i) = inr x.
Proof.
  intros Hx. unfold np_getitem.
  rewrite np_index_nonneg by (apply lookup_lt_Some in Hx; lia).
  simpl. by rewrite Nat2Z.id, Hx.
Qed.

Lemma np_getitem_first {A} (a : list A) (x : A) :
  a !! 0%nat = Some x -> np_getitem a 0 = inr x.
Proof. apply (np_getitem_nonneg a 0). Qed.

Lemma np_getitem_inl {A} (a : list A) (k : Z) (e : PyError) :
  np_getitem a k = inl e -> e = IndexError.
Proof.
  unfold np_getitem. destruct (np_index (length a) k) as [e'|i] eqn:Hi; simpl.
  - intros [= <-]. by apply np_index_inl in Hi as [-> _].
  - destruct (a !! i); by intros [= <-].
Qed.

Lemma dict_get_None {K V} `{EqDecision K} (d : dict K V) (k : K) :
  k ∉ dict_keys d -> dict_get d k = None.
Proof.
  induction d as [|[k' v] d IH]; simpl; [done |].
  intros Hk. apply not_elem_of_cons in Hk as [Hne Hk].
  rewrite decide_False by done. by apply IH.
Qed.

Lemma dict_get_Some_key {K V} `{EqDecision K} (d : dict K V) (k : K) (v : V) :
  dict_get d k = Some v -> k ∈ dict_keys d.
Proof.
  induction d as [|[k' v'] d IH]; simpl; [done |].
  case_decide as Hk; [subst; intros _; apply elem_of_cons; by left |].
  intros Hv. apply elem_of_cons. right. by apply IH.
Qed.

Lemma bind_inr {A B} (f : A -> Result B) (a : A) : (inr a ≫= f) = f a.
Proof. reflexivity. Qed.

Lemma bind_inl {A B} (f : A -> Result B) (e : PyError) : (inl e ≫= f) = inl e.
Proof. reflexivity. Qed.

Lemma for_items_cons {K V S} (body : S -> K -> V -> Result S) k v d s :
  for_items body ((k, v) :: d) s = (body s k v ≫= for_items body d).
Proof. reflexivity. Qed.

Lemma dict_keys_cons {K V} (k : K) (v : V) (d : dict K V) :
  dict_keys ((k, v) :: d) = k :: dict_keys d.
Proof. reflexivity. Qed.

Lemma dict_wf_cons {K V} (k : K) (v : V) (d : dict K V) :
  dict_wf ((k, v) :: d) <-> (k ∉ dict_keys d) /\ dict_wf d.
Proof. unfold dict_wf. rewrite dict_keys_cons. apply NoDup_cons. Qed.

Lemma np_setitem_with_eq f (a : list point) (k : Z) (v : R) :
  np_setitem_with f a k v = (np_index (length a) k ≫= fun i => inr (alter (f v) i a)).
Proof. reflexivity. Qed.

Lemma np_setitem_with_nonneg f (a : list point) (k : Z) (v : R) :
  0 <= k < Z.of_nat (length a) ->
  np_setitem_with f a k v = inr (alter (f v) (Z.to_nat k) a).
Proof. intros Hk. unfold np_setitem_with. by rewrite np_index_nonneg. Qed.

Lemma for_items_setitem (f : R -> point -> point) (d : dict Z R) :
  forall a : list point,
    dict_wf d ->
    (forall k, k ∈ dict_keys d -> 0 <= k < Z.of_nat (length a)) ->
    exists a',
      for_items (np_setitem_with f) d a = inr a' /\
      length a' = length a /\
      forall i : nat,
        a' !! i = match dict_get d (Z.of_nat i) with
                  | Some v => f v <$> a !! i
                  | None => a !! i
                  end.
Proof.
  induction d as [|[k v] d IH]; intros a Hwf Hkeys.
  - by exists a.
  - apply dict_wf_cons in Hwf as [Hk Hwf].
    assert (0 <= k < Z.of_nat (length a)) as Hkr
      by (apply Hkeys; rewrite dict_keys_cons; apply elem_of_cons; by left).
    rewrite for_items_cons, np_setitem_with_nonneg, bind_inr by done.
    destruct (IH (alter (f v) (Z.to_nat k) a)) as (a' & Hrun & Hlen & Hget).
    + done.
    + intros k' Hk'. rewrite length_alter. apply Hkeys.
      rewrite dict_keys_cons. apply elem_of_cons. by right.
    + exists a'. split; [done |]. split; [by rewrite Hlen, length_alter |].
      intros i. rewrite Hget. cbn [dict_get]. case_decide as Hi.
      * subst k. rewrite dict_get_None by done.
        by rewrite Nat2Z.id, list_lookup_alter_eq.
      * rewrite list_lookup_alter_ne; [done | lia].
Qed.

Lemma AbsoluteMove_offsets_in_range (xs ys : dict Z R) :
  dict_wf xs -> dict_wf ys -> keys_in_range xs -> keys_in_range ys ->
  exists offsets,
    AbsoluteMove_offsets (mkAbsoluteMove xs ys) = inr offsets /\
    length offsets = 68%nat /\
    forall i : nat, (i < 68)%nat ->
      offsets !! i = @Some point (shift_of xs i, shift_of ys i).
Proof.
  intros Hwx Hwy Hx Hy. unfold AbsoluteMove_offsets. cbn [x_shifts y_shifts].
  destruct (for_items_setitem (fun v p => (v, p.2)) xs (np_zeros 68))
    as (o1 & Hrun1 & Hlen1 & Hget1); [done | |].
  { intros k Hk. apply Hx in Hk. unfold np_zeros. rewrite length_replicate. lia. }
  destruct (for_items_setitem (fun v p => (p.1, v)) ys o1)
    as (o2 & Hrun2 & Hlen2 & Hget2); [done | |].
  { intros k Hk. apply Hy in Hk. rewrite Hlen1. unfold np_zeros.
    rewrite length_replicate. lia. }
  change (for_items np_setitem_col0) with (for_items (np_setitem_with (fun v p => (v, p.2)))).
  change (for_items np_setitem_col1) with (for_items (np_setitem_with (fun v p => (p.1, v)))).
  rewrite Hrun1, bind_inr, Hrun2.
  exists o2. split; [done |]. split.
  { rewrite Hlen2, Hlen1. unfold np_zeros. by rewrite length_replicate. }
  intros i Hi. rewrite Hget2, Hget1. unfold shift_of, np_zeros.
  rewrite lookup_replicate_2 by done.
  by destruct (dict_get xs (Z.of_nat i)), (dict_get ys (Z.of_nat i)).
Qed.

Lemma pts2inst_68 `{Collaborators} (new_points : list point) (lf : Face)
    (kw : gmap string PyVal) :
  face_wf lf -> length new_points = 68%nat ->
  pts2inst new_points lf kw =
    let df := interpolate (img_shape (img lf)) (points lf) new_points true
                (pts2inst_kwargs kw) in
    inr (mkLandmarkFace new_points (warp df (img lf)), df).
Proof.
  intros Hlf Hnew. unfold pts2inst, DisplacementField_generate.
  by rewrite bool_decide_eq_true_2.
Qed.

(** ** AbsoluteMove *)

Lemma AbsoluteMove_perform_offsets `{Collaborators} (self : AbsoluteMove) (lf : Face)
    (offsets : list point) :
  face_wf lf ->
  AbsoluteMove_offsets self = inr offsets -> length offsets = 68%nat ->
  AbsoluteMove_perform self lf =
    let new_points := zip_with padd (points lf) offsets in
    let df := interpolate (img_shape (img lf)) (points lf) new_points true
                {[ "function"%string := PyStr "linear" ]} in
    inr (mkLandmarkFace new_points (warp df (img lf)), df).
Proof.
  intros Hlf Hoffs Hlen. unfold AbsoluteMove_perform.
  rewrite Hoffs, bind_inr. unfold np_add.
  rewrite bool_decide_eq_true_2 by (by rewrite Hlen).
  rewrite bind_inr, pts2inst_68; [done | done |].
  rewrite length_zip_with, Hlf, Hlen. done.
Qed.

(** C1. For every face (68 landmarks) and every pair of shift maps whose
    keys all lie in 0..67, [AbsoluteMove(x_shifts, y_shifts).perform(face)]
    returns a new face with 68 landmarks whose landmark [i] is
    [face.points[i] + (x_shifts[i], y_shifts[i])], a landmark absent from a
    map getting offset 0 in that coordinate. *)
Theorem AbsoluteMove_perform_points `{Collaborators} (xs ys : dict Z R) (lf : Face) :
  face_wf lf -> dict_wf xs -> dict_wf ys ->
  keys_in_range xs -> keys_in_range ys ->
  exists new_lf df,
    AbsoluteMove_perform (AbsoluteMove_init (Some xs) (Some ys)) lf = inr (new_lf, df) /\
    length (points new_lf) = 68%nat /\
    forall (i : nat) (p : point),
      points lf !! i = Some p ->
      points new_lf !! i = Some (padd p (shift_of xs i, shift_of ys i)).
Proof.
  intros Hlf Hwx Hwy Hx Hy.
  destruct (AbsoluteMove_offsets_in_range xs ys) as (offs & Hoffs & Hlen & Hget);
    [done .. |].
  change (AbsoluteMove_init (Some xs) (Some ys)) with (mkAbsoluteMove xs ys).
  rewrite (AbsoluteMove_perform_offsets _ lf offs) by done.
  eexists _, _. split; [reflexivity |]. cbn [points]. split.
  { rewrite length_zip_with, Hlf, Hlen. done. }
  intros i p Hp. rewrite lookup_zip_with, Hp. cbn.
  rewrite Hget; [done |]. apply lookup_lt_Some in Hp. by rewrite <- Hlf.
Qed.

(** The theorem at a concrete input: landmark 3 moved by 2 in x, landmark 5
    by 1 in y. *)
Lemma AbsoluteMove_perform_points_witness :
  exists new_lf df,
    @AbsoluteMove_perform Toy.collaborators
      (AbsoluteMove_init (Some [(3, 2%R)]) (Some [(5, 1%R)])) (Toy.face 0) =
      inr (new_lf, df) /\
    length (points new_lf) = 68%nat /\
    forall (i : nat) (p : point),
      points (Toy.face 0) !! i = Some p ->
      points new_lf !! i = Some (padd p (shift_of [(3, 2%R)] i, shift_of [(5, 1%R)] i)).
Proof.
  apply (@AbsoluteMove_perform_points Toy.collaborators).
  - reflexivity.
  - apply NoDup_singleton.
  - apply NoDup_singleton.
  - intros k Hk. apply list_elem_of_singleton in Hk. cbn in Hk. lia.
  - intros k Hk. apply list_elem_of_singleton in Hk. cbn in Hk. lia.
Defined.

Lemma for_items_setitem_cases (f : R -> point -> point) (d : dict Z R) :
  forall a : list point,
    for_items (np_setitem_with f) d a = inl IndexError \/
    exists a', for_items (np_setitem_with f) d a = inr a' /\ length a' = length a.
Proof.
  induction d as [|[k v] d IH]; intros a.
  - right. by exists a.
  - rewrite for_items_cons, np_setitem_with_eq.
    destruct (np_index (length a) k) as [e|i] eqn:Hi.
    + apply np_index_inl in Hi as [-> _]. left. reflexivity.
    + rewrite !bind_inr. destruct (IH (alter (f v) i a)) as [Herr|(a' & Hrun & Hlen)].
      * by left.
      * right. exists a'. split; [done |]. by rewrite Hlen, length_alter.
Qed.

Lemma for_items_setitem_out_of_range (f : R -> point -> point) (d : dict Z R) :
  forall a : list point,
    (exists k, k ∈ dict_keys d /\ out_of_range (length a) k) ->
    for_items (np_setitem_with f) d a = inl IndexError.
Proof.
  induction d as [|[k v] d IH]; intros a (k' & Hk' & Hout).
  - by apply elem_of_nil in Hk'.
  - rewrite for_items_cons, np_setitem_with_eq.
    destruct (np_index (length a) k) as [e|i] eqn:Hi.
    + apply np_index_inl in Hi as [-> _]. reflexivity.
    + rewrite !bind_inr. apply IH. exists k'. rewrite length_alter. split; [| done].
      rewrite dict_keys_cons in Hk'. apply elem_of_cons in Hk' as [-> | Hk']; [| done].
      apply np_index_inr in Hi. unfold out_of_range in Hout. lia.
Qed.

Lemma for_items_setitem_wraps (f : R -> point -> point) (d : dict Z R) :
  forall a : list point,
    (forall k, k ∈ dict_keys d -> - Z.of_nat (length a) <= k < Z.of_nat (length a)) ->
    exists a', for_items (np_setitem_with f) d a = inr a' /\ length a' = length a.
Proof.
  induction d as [|[k v] d IH]; intros a Hkeys.
  - by exists a.
  - rewrite for_items_cons, np_setitem_with_eq.
    assert (exists i, np_index (length a) k = inr i) as [i ->].
    { assert (- Z.of_nat (length a) <= k < Z.of_nat (length a)) as Hk
        by (apply Hkeys; rewrite dict_keys_cons; apply elem_of_cons; by left).
      destruct (decide (0 <= k)).
      - eexists. apply np_index_nonneg. lia.
      - eexists. apply np_index_negative. lia. }
    rewrite !bind_inr. destruct (IH (alter (f v) i a)) as (a' & Hrun & Hlen).
    + intros k' Hk'. rewrite length_alter. apply Hkeys. rewrite dict_keys_cons.
      apply elem_of_cons. by right.
    + exists a'. split; [done |]. by rewrite Hlen, length_alter.
Qed.

(** C7, as the code has it.  [AbsoluteMove.perform] fails with an
    [IndexError] as soon as some key of a shift map is below -68 or above 67.
    Keys in -68..-1 are not rejected (numpy counts them from the end): with
    all keys in -68..67 the call succeeds on every face. *)
Theorem AbsoluteMove_perform_index_error `{Collaborators} (xs ys : dict Z R) (lf : Face) :
  ((exists k, (k ∈ dict_keys xs \/ k ∈ dict_keys ys) /\ (k < -68 \/ 67 < k)) ->
   AbsoluteMove_perform (AbsoluteMove_init (Some xs) (Some ys)) lf = inl IndexError) /\
  (face_wf lf ->
   (forall k, k ∈ dict_keys xs \/ k ∈ dict_keys ys -> -68 <= k <= 67) ->
   exists new_lf df,
     AbsoluteMove_perform (AbsoluteMove_init (Some xs) (Some ys)) lf = inr (new_lf, df)).
Proof.
  change (AbsoluteMove_init (Some xs) (Some ys)) with (mkAbsoluteMove xs ys).
  unfold AbsoluteMove_perform, AbsoluteMove_offsets. cbn [x_shifts y_shifts].
  change (for_items np_setitem_col0) with (for_items (np_setitem_with (fun v p => (v, p.2)))).
  change (for_items np_setitem_col1) with (for_items (np_setitem_with (fun v p => (p.1, v)))).
  assert (length (np_zeros 68) = 68%nat) as Hz by apply length_replicate.
  split.
  - intros (k & Hk & Hbad).
    destruct (for_items_setitem_cases (fun v p => (v, p.2)) xs (np_zeros 68))
      as [-> | (o1 & Hrun1 & Hlen1)]; [done |].
    rewrite Hrun1, bind_inr. destruct Hk as [Hk | Hk].
    + rewrite for_items_setitem_out_of_range in Hrun1; [done |].
      exists k. split; [done |]. rewrite Hz. unfold out_of_range. lia.
    + rewrite for_items_setitem_out_of_range; [done |].
      exists k. split; [done |]. rewrite Hlen1, Hz. unfold out_of_range. lia.
  - intros Hlf Hkeys.
    destruct (for_items_setitem_wraps (fun v p => (v, p.2)) xs (np_zeros 68))
      as (o1 & -> & Hlen1).
    { intros k Hk. rewrite Hz. specialize (Hkeys k (or_introl Hk)). lia. }
    rewrite bind_inr.
    destruct (for_items_setitem_wraps (fun v p => (p.1, v)) ys o1)
      as (o2 & -> & Hlen2).
    { intros k Hk. rewrite Hlen1, Hz. specialize (Hkeys k (or_intror Hk)). lia. }
    rewrite bind_inr. unfold np_add.
    rewrite bool_decide_eq_true_2 by (by rewrite Hlen2, Hlen1, Hz).
    rewrite bind_inr, pts2inst_68; [by eexists _, _ | done |].
    rewrite length_zip_with, Hlf, Hlen2, Hlen1, Hz. done.
Qed.

(** The theorem on [x_shifts = {68: 1.0}]. *)
Lemma AbsoluteMove_perform_index_error_witness :
  @AbsoluteMove_perform Toy.collaborators
    (AbsoluteMove_init (Some [(68, 1%R)]) (Some [])) (Toy.face 0) = inl IndexError.
Proof.
  apply (proj1 (@AbsoluteMove_perform_index_error Toy.collaborators
                  [(68, 1%R)] [] (Toy.face 0))).
  exists 68. split; [| lia]. left. apply list_elem_of_singleton. reflexivity.
Defined.

(** C7 does not hold as stated: the key -1 lies outside 0..67, yet the call
    succeeds and moves landmark 67. *)
Lemma AbsoluteMove_perform_negative_key :
  (-1 ∈ dict_keys [(-1, 5%R)] /\ ~ (0 <= -1 <= 67)) /\
  exists new_lf df,
    @AbsoluteMove_perform Toy.collaborators
      (AbsoluteMove_init (Some [(-1, 5%R)]) None) (Toy.face 0) = inr (new_lf, df) /\
    points new_lf !! 67%nat = Some (padd (INR 67, 0%R) (5%R, 0%R)).
Proof.
  split.
  - split; [apply list_elem_of_singleton; reflexivity | lia].
  - eexists _, _. split; reflexivity.
Qed.

(** ** Action.pts2inst *)

(** C6. When the new points do not form a (68, 2) array, [pts2inst] fails
    with the engine's [ShapeError]: the outcome is the exception alone, no
    face and no field are produced; the input face is a value that
    [pts2inst] only reads. *)
Theorem pts2inst_shape_error `{Collaborators} (new_points : list point) (lf : Face)
    (kw : gmap string PyVal) :
  length new_points <> 68%nat ->
  pts2inst new_points lf kw = inl ShapeError.
Proof.
  intros Hlen. unfold pts2inst, DisplacementField_generate.
  rewrite bool_decide_eq_false_2; [reflexivity |]. intros [_ ?]. done.
Qed.

(** 67 rows of 2. *)
Lemma pts2inst_shape_error_witness :
  length (replicate 67 (0%R, 0%R)) <> 68%nat /\
  @pts2inst Toy.collaborators (replicate 67 (0%R, 0%R)) (Toy.face 0) ∅ = inl ShapeError.
Proof.
  assert (length (replicate 67 (0%R, 0%R)) <> 68%nat) as Hlen
    by (rewrite length_replicate; lia).
  split; [exact Hlen |].
  exact (@pts2inst_shape_error Toy.collaborators _ (Toy.face 0) ∅ Hlen).
Defined.

Lemma pts2inst_kwargs_empty : pts2inst_kwargs ∅ = {[ "function"%string := PyStr "linear" ]}.
Proof. reflexivity. Qed.

Lemma pts2inst_kwargs_nonempty (kw : gmap string PyVal) :
  kw <> ∅ -> pts2inst_kwargs kw = kw.
Proof.
  intros Hne. unfold pts2inst_kwargs. rewrite bool_decide_eq_false_2; [done |].
  intros Hsize. by apply map_size_empty_iff in Hsize.
Qed.

(** C10. [pts2inst] hands [{'function': 'linear'}] to the engine only when
    it received no interpolation keyword argument; otherwise it hands on the
    supplied arguments as they are, without adding [function]. *)
Theorem pts2inst_default_interpolation `{Collaborators} (new_points : list point)
    (lf : Face) (kw : gmap string PyVal) :
  pts2inst new_points lf ∅ =
    (df ← DisplacementField_generate (img_shape (img lf)) (points lf) new_points true
            {[ "function"%string := PyStr "linear" ]};
     inr (mkLandmarkFace new_points (warp df (img lf)), df)) /\
  (kw <> ∅ ->
   pts2inst new_points lf kw =
     (df ← DisplacementField_generate (img_shape (img lf)) (points lf) new_points true kw;
      inr (mkLandmarkFace new_points (warp df (img lf)), df)) /\
   (kw !! "function"%string = None ->
    pts2inst_kwargs kw !! "function"%string = None)).
Proof.
  split; [reflexivity |]. intros Hne. unfold pts2inst.
  rewrite pts2inst_kwargs_nonempty by done. split; [reflexivity | done].
Qed.

(** The theorem with one keyword argument, [smooth=0.5]: the field of the
    small instance records the arguments it was generated with. *)
Lemma pts2inst_default_interpolation_witness :
  let kw : gmap string PyVal := {[ "smooth"%string := PyFloat (1 / 2) ]} in
  let lf := Toy.face 0 in
  kw <> ∅ /\
  @pts2inst Toy.collaborators (points lf) lf ∅ =
    inr (mkLandmarkFace (points lf) 7%nat,
         (points lf, points lf, {[ "function"%string := PyStr "linear" ]})) /\
  @pts2inst Toy.collaborators (points lf) lf kw =
    inr (mkLandmarkFace (points lf) 7%nat, (points lf, points lf, kw)) /\
  pts2inst_kwargs kw !! "function"%string = None.
Proof.
  intros kw lf.
  assert (kw <> ∅) as Hne by apply insert_non_empty.
  destruct (@pts2inst_default_interpolation Toy.collaborators (points lf) lf kw)
    as [H0 H1].
  destruct (H1 Hne) as [H2 H3].
  split; [exact Hne |]. split; [| split].
  - rewrite H0. reflexivity.
  - rewrite H2. reflexivity.
  - apply H3. reflexivity.
Defined.

(** ** Dictionaries built by assignment *)

Lemma dict_get_set {K V} `{EqDecision K} (d : dict K V) (k k' : K) (v : V) :
  dict_get (dict_set d k v) k' = if decide (k' = k) then Some v else dict_get d k'.
Proof.
  induction d as [|[k0 v0] d IH]; cbn [dict_set dict_get].
  - done.
  - destruct (decide (k = k0)) as [->|Hne]; cbn [dict_get].
    + by destruct (decide (k' = k0)).
    + rewrite IH. destruct (decide (k' = k0)) as [->|]; [| done].
      by rewrite decide_False.
Qed.

Lemma dict_get_is_Some {K V} `{EqDecision K} (d : dict K V) (k : K) :
  is_Some (dict_get d k) <-> k ∈ dict_keys d.
Proof.
  split.
  - intros [v Hv]. by eapply dict_get_Some_key.
  - intros Hk. destruct (dict_get d k) eqn:Hget; [done |].
    induction d as [|[k0 v0] d IH]; [by apply elem_of_nil in Hk |].
    cbn [dict_get] in Hget. rewrite dict_keys_cons in Hk.
    destruct (decide (k = k0)); [done |].
    apply elem_of_cons in Hk as [? | Hk]; [done | by apply IH].
Qed.

Lemma dict_keys_set {K V} `{EqDecision K} (d : dict K V) (k k' : K) (v : V) :
  k' ∈ dict_keys (dict_set d k v) <-> k' = k \/ k' ∈ dict_keys d.
Proof.
  rewrite <- !dict_get_is_Some, dict_get_set.
  destruct (decide (k' = k)) as [Heq | Hne].
  - split; [by left | by eexists].
  - split; [by right | by intros [? | ?]].
Qed.

Lemma dict_wf_set {K V} `{EqDecision K} (d : dict K V) (k : K) (v : V) :
  dict_wf d -> dict_wf (dict_set d k v).
Proof.
  induction d as [|[k0 v0] d IH]; intros Hwf; cbn [dict_set].
  - apply NoDup_singleton.
  - apply dict_wf_cons in Hwf as [Hk0 Hwf].
    destruct (decide (k = k0)) as [->|Hne]; apply dict_wf_cons.
    + done.
    + split; [| by apply IH]. rewrite dict_keys_set. by intros [? | ?].
Qed.

(** ** Lambda *)

Lemma rs_state_estimate `{Collaborators} (l : positive) (lf : Face) (w : World) :
  rs_state (rs_estimate l lf w) l = estimate (rs_state w l) lf.
Proof. unfold rs_state at 1, rs_estimate. cbn. by rewrite lookup_insert_eq. Qed.

Lemma Lambda_step_in_range `{Collaborators} (scale : R) (rs : RS) (lf : Face)
    (shifts : dict Z R * dict Z R) (k : LandmarkKey) (angle prop : R) (i : Z) :
  face_wf lf ->
  shape_preserving (inp2ref rs) -> shape_preserving (ref2inp rs) ->
  resolve_key k = inr i -> 0 <= i <= 67 ->
  exists shift,
    spec_pixel_shift rs lf scale (Z.to_nat i) angle prop = Some shift /\
    Lambda_step scale rs lf (inp2ref rs (points lf)) shifts k (angle, prop) =
      inr (dict_set shifts.1 i shift.1, dict_set shifts.2 i shift.2).
Proof.
  intros Hlf Hin Hout Hk Hi.
  remember (Z.to_nat i) as j eqn:Hj. assert (i = Z.of_nat j) as -> by lia.
  destruct (lookup_lt_is_Some_2 (inp2ref rs (points lf)) j) as [q Hq].
  { rewrite Hin, Hlf. lia. }
  destruct (lookup_lt_is_Some_2 (points lf) j) as [p Hp].
  { rewrite Hlf. lia. }
  destruct (lookup_lt_is_Some_2 (ref2inp rs [padd q (ref_shift_of scale angle prop)]) 0)
    as [b Hb].
  { rewrite Hout. cbn. lia. }
  exists (psub b p). split.
  - unfold spec_pixel_shift. rewrite Hq. cbn.
    unfold ref_shift_of in Hb. rewrite Hb. cbn. by rewrite Hp.
  - unfold Lambda_step. rewrite Hk, bind_inr.
    rewrite (np_getitem_nonneg _ _ _ Hq), bind_inr.
    rewrite (np_getitem_first _ _ Hb), bind_inr.
    by rewrite (np_getitem_nonneg _ _ _ Hp), bind_inr.
Qed.

Lemma entry_for_Some `{Collaborators} (specs : LandmarkSpec) (i : Z) (v : R * R) :
  entry_for specs i = Some v -> exists k, (k, v) ∈ specs /\ resolve_key k = inr i.
Proof.
  induction specs as [|[k0 v0] specs IH]; cbn [entry_for]; [done |].
  destruct (entry_for specs i) as [v'|] eqn:Hrest.
  - intros [= <-]. destruct IH as (k & Hk & Hres); [done |].
    exists k. split; [by apply elem_of_cons; right | done].
  - destruct (resolve_key k0) as [e|j] eqn:Hres; [done |].
    case_decide as Hj; [| done]. intros [= <-]. subst j.
    exists k0. split; [by apply elem_of_cons; left | done].
Qed.

Lemma entry_for_is_Some `{Collaborators} (specs : LandmarkSpec) (i : Z) k v :
  (k, v) ∈ specs -> resolve_key k = inr i -> is_Some (entry_for specs i).
Proof.
  induction specs as [|[k0 v0] specs IH]; intros Hin Hres.
  - by apply elem_of_nil in Hin.
  - cbn [entry_for]. apply elem_of_cons in Hin as [[= <- <-] | Hin].
    + destruct (entry_for specs i); [done |]. rewrite Hres.
      by rewrite decide_True.
    + destruct (IH Hin Hres) as [v' ->]. done.
Qed.

Lemma entry_for_unique `{Collaborators} (specs : LandmarkSpec) (i : Z) k v :
  dict_wf specs -> (k, v) ∈ specs -> resolve_key k = inr i ->
  (forall k' v', (k', v') ∈ specs -> resolve_key k' = inr i -> k' = k) ->
  entry_for specs i = Some v.
Proof.
  intros Hwf Hin Hres Huniq.
  destruct (entry_for_is_Some specs i k v Hin Hres) as [v' Hv'].
  rewrite Hv'. f_equal.
  apply entry_for_Some in Hv' as (k' & Hin' & Hres').
  assert (k' = k) as -> by eauto.
  clear Hres Hres' Huniq.
  induction specs as [|[k0 v0] specs IH]; [by apply elem_of_nil in Hin |].
  apply dict_wf_cons in Hwf as [Hk0 Hwf].
  apply elem_of_cons in Hin as [[= <- <-] | Hin];
    apply elem_of_cons in Hin' as [[= <-] | Hin'].
  - done.
  - exfalso. apply Hk0. apply (list_elem_of_fmap_2 fst) in Hin'. done.
  - exfalso. subst. apply Hk0. apply (list_elem_of_fmap_2 fst) in Hin. done.
  - by apply IH.
Qed.

Lemma Lambda_loop `{Collaborators} (scale : R) (rs : RS) (lf : Face)
    (specs : LandmarkSpec) :
  face_wf lf ->
  shape_preserving (inp2ref rs) -> shape_preserving (ref2inp rs) ->
  specs_resolve specs ->
  forall shifts : dict Z R * dict Z R,
  exists xs ys,
    for_items (Lambda_step scale rs lf (inp2ref rs (points lf))) specs shifts =
      inr (xs, ys) /\
    forall i : Z,
      dict_get xs i =
        match entry_for specs i with
        | Some (angle, prop) =>
            fst <$> spec_pixel_shift rs lf scale (Z.to_nat i) angle prop
        | None => dict_get shifts.1 i
        end /\
      dict_get ys i =
        match entry_for specs i with
        | Some (angle, prop) =>
            snd <$> spec_pixel_shift rs lf scale (Z.to_nat i) angle prop
        | None => dict_get shifts.2 i
        end.
Proof.
  intros Hlf Hin Hout.
  induction specs as [|[k [angle prop]] specs IH]; intros Hres shifts.
  - exists shifts.1, shifts.2. split; [by destruct shifts | done].
  - destruct (Hres k (angle, prop)) as (i0 & Hk & Hi0); [by apply elem_of_cons; left |].
    destruct (Lambda_step_in_range scale rs lf shifts k angle prop i0)
      as (shift & Hshift & Hstep); [done .. |].
    rewrite for_items_cons, Hstep, bind_inr.
    destruct (IH (fun k v Hkv => Hres k v (list_elem_of_further _ _ _ Hkv))
                 (dict_set shifts.1 i0 shift.1, dict_set shifts.2 i0 shift.2))
      as (xs & ys & Hrun & Hget).
    exists xs, ys. split; [done |]. intros i.
    destruct (Hget i) as [Hx Hy]. rewrite Hx, Hy. cbn [entry_for fst snd].
    destruct (entry_for specs i) as [[a p]|]; [done |].
    rewrite Hk, !dict_get_set.
    destruct (decide (i0 = i)) as [->|Hne].
    + rewrite !decide_True by done. by rewrite Hshift.
    + by rewrite !decide_False by done.
Qed.

(** C2. For every face and every [Lambda(scale, specs)] whose keys all
    resolve to a landmark index, [perform(face)] fits the reference space,
    builds two shift maps and returns what [AbsoluteMove] with those maps
    returns on the same face.  The maps have exactly the resolved landmarks
    as keys, and the entry of a landmark is the pixel shift
    [toInput(toReference(points)[i] + (cos, sin) * proportion * scale) - points[i]]
    of the spec entry resolving to it (the last such entry, should two keys
    name the same landmark). *)
Theorem Lambda_perform_delegates `{Collaborators} (self : Lambda) (lf : Face) (w : World) :
  face_wf lf ->
  shape_preserving (inp2ref (estimate (rs_state w (Lambda_reference_space self)) lf)) ->
  shape_preserving (ref2inp (estimate (rs_state w (Lambda_reference_space self)) lf)) ->
  dict_wf (Lambda_specs self) ->
  specs_resolve (Lambda_specs self) ->
  exists xs ys,
    Lambda_perform self lf w =
      (AbsoluteMove_perform (AbsoluteMove_init (Some xs) (Some ys)) lf,
       rs_estimate (Lambda_reference_space self) lf w) /\
    (forall i, i ∈ dict_keys xs <->
               exists k v, (k, v) ∈ Lambda_specs self /\ resolve_key k = inr i) /\
    (forall i, i ∈ dict_keys ys <->
               exists k v, (k, v) ∈ Lambda_specs self /\ resolve_key k = inr i) /\
    (forall i,
       dict_get xs i =
         ('(angle, prop) ← entry_for (Lambda_specs self) i;
          fst <$> spec_pixel_shift
                    (estimate (rs_state w (Lambda_reference_space self)) lf) lf
                    (Lambda_scale self) (Z.to_nat i) angle prop) /\
       dict_get ys i =
         ('(angle, prop) ← entry_for (Lambda_specs self) i;
          snd <$> spec_pixel_shift
                    (estimate (rs_state w (Lambda_reference_space self)) lf) lf
                    (Lambda_scale self) (Z.to_nat i) angle prop)) /\
    (forall k angle prop i,
       (k, (angle, prop)) ∈ Lambda_specs self -> resolve_key k = inr i ->
       (forall k' v', (k', v') ∈ Lambda_specs self -> resolve_key k' = inr i -> k' = k) ->
       exists shift,
         spec_pixel_shift (estimate (rs_state w (Lambda_reference_space self)) lf) lf
           (Lambda_scale self) (Z.to_nat i) angle prop = Some shift /\
         dict_get xs i = Some shift.1 /\ dict_get ys i = Some shift.2).
Proof.
  intros Hlf Hin Hout Hwf Hres.
  set (rs := estimate (rs_state w (Lambda_reference_space self)) lf) in *.
  destruct (Lambda_loop (Lambda_scale self) rs lf (Lambda_specs self) Hlf Hin Hout Hres
              ([], [])) as (xs & ys & Hrun & Hget).
  assert (forall i,
    dict_get xs i =
      ('(angle, prop) ← entry_for (Lambda_specs self) i;
       fst <$> spec_pixel_shift rs lf (Lambda_scale self) (Z.to_nat i) angle prop) /\
    dict_get ys i =
      ('(angle, prop) ← entry_for (Lambda_specs self) i;
       snd <$> spec_pixel_shift rs lf (Lambda_scale self) (Z.to_nat i) angle prop))
    as Hval.
  { intros i. destruct (Hget i) as [-> ->].
    by destruct (entry_for (Lambda_specs self) i) as [[a p]|]. }
  assert (forall k angle prop i,
    (k, (angle, prop)) ∈ Lambda_specs self -> resolve_key k = inr i ->
    exists shift,
      spec_pixel_shift rs lf (Lambda_scale self) (Z.to_nat i) angle prop = Some shift)
    as Hdef.
  { intros k angle prop i Hk Hi.
    destruct (Hres _ _ Hk) as (i' & Hi' & Hrange).
    assert (i' = i) as -> by congruence.
    destruct (Lambda_step_in_range (Lambda_scale self) rs lf ([], []) k angle prop i)
      as (shift & Hshift & _); [done .. |]. by exists shift. }
  assert (forall i, is_Some (entry_for (Lambda_specs self) i) <->
                    exists k v, (k, v) ∈ Lambda_specs self /\ resolve_key k = inr i)
    as Hkeys.
  { intros i. split.
    - intros [v Hv]. apply entry_for_Some in Hv as (k & ? & ?). by exists k, v.
    - intros (k & v & ? & ?). by eapply entry_for_is_Some. }
  exists xs, ys. split; [| split; [| split; [| split]]].
  - unfold Lambda_perform, Lambda_shifts. rewrite rs_state_estimate.
    fold rs. by rewrite Hrun.
  - intros i. rewrite <- Hkeys, <- dict_get_is_Some. destruct (Hval i) as [-> _].
    destruct (entry_for (Lambda_specs self) i) as [[a p]|] eqn:He; cbn.
    + apply entry_for_Some in He as (k & Hk & Hi).
      destruct (Hdef k a p i Hk Hi) as [shift ->]. cbn. split; by eexists.
    + split; by intros [? ?].
  - intros i. rewrite <- Hkeys, <- dict_get_is_Some. destruct (Hval i) as [_ ->].
    destruct (entry_for (Lambda_specs self) i) as [[a p]|] eqn:He; cbn.
    + apply entry_for_Some in He as (k & Hk & Hi).
      destruct (Hdef k a p i Hk Hi) as [shift ->]. cbn. split; by eexists.
    + split; by intros [? ?].
  - done.
  - intros k angle prop i Hk Hi Huniq.
    destruct (Hdef k angle prop i Hk Hi) as [shift Hshift].
    exists shift. split; [done |]. destruct (Hval i) as [-> ->].
    rewrite (entry_for_unique _ i k (angle, prop)) by done. cbn.
    by rewrite Hshift.
Qed.

(** The theorem on [Lambda(1, {3: (0, 1), 'CHIN': (90, 0.5)})]. *)
Lemma Lambda_perform_delegates_witness :
  exists xs ys,
    @Lambda_perform Toy.collaborators Toy.lambda (Toy.face 0) Toy.world1 =
      (@AbsoluteMove_perform Toy.collaborators
         (AbsoluteMove_init (Some xs) (Some ys)) (Toy.face 0),
       @rs_estimate Toy.collaborators 1%positive (Toy.face 0) Toy.world1) /\
    (forall i, i ∈ dict_keys xs <->
       exists k v, (k, v) ∈ Lambda_specs Toy.lambda /\
                   @resolve_key Toy.collaborators k = inr i).
Proof.
  destruct (@Lambda_perform_delegates Toy.collaborators Toy.lambda (Toy.face 0) Toy.world1)
    as (xs & ys & Hperform & Hkeys & _).
  - reflexivity.
  - intros ps. apply length_map.
  - intros ps. apply length_map.
  - apply NoDup_cons. split; [| apply NoDup_singleton].
    intros Hin. apply list_elem_of_singleton in Hin. discriminate Hin.
  - intros k v Hin.
    apply elem_of_cons in Hin as [Hin | Hin];
      [| apply list_elem_of_singleton in Hin]; injection Hin as -> ->.
    + exists 3. split; [reflexivity | lia].
    + exists 8. split; [reflexivity | lia].
  - exists xs, ys. split; [exact Hperform | exact Hkeys].
Defined.

Lemma np_getitem_in_range {A} (a : list A) (k : Z) :
  - Z.of_nat (length a) <= k < Z.of_nat (length a) -> exists x, np_getitem a k = inr x.
Proof.
  intros Hk. unfold np_getitem.
  assert (exists i, np_index (length a) k = inr i) as [i Hi].
  { destruct (decide (0 <= k)).
    - eexists. apply np_index_nonneg. lia.
    - eexists. apply np_index_negative. lia. }
  rewrite Hi, bind_inr. apply np_index_inr in Hi as [Hi _].
  destruct (lookup_lt_is_Some_2 a i Hi) as [x ->]. by exists x.
Qed.

Lemma Lambda_step_unknown_name `{Collaborators} scale rs lf ref_points shifts s v :
  dict_get LANDMARK_NAMES s = None ->
  Lambda_step scale rs lf ref_points shifts (ByName s) v = inl KeyError.
Proof.
  intros Hs. unfold Lambda_step. destruct v as [angle prop]. cbn [resolve_key].
  by rewrite Hs.
Qed.

Lemma Lambda_step_error `{Collaborators} scale rs lf ref_points shifts k v e :
  Lambda_step scale rs lf ref_points shifts k v = inl e ->
  e = KeyError \/ e = IndexError.
Proof.
  unfold Lambda_step. destruct v as [angle prop].
  destruct (resolve_key k) as [e0|key] eqn:Hk.
  - rewrite bind_inl. intros [= <-]. left.
    destruct k as [i|s]; cbn in Hk; [done |].
    destruct (dict_get LANDMARK_NAMES s); by inversion Hk.
  - rewrite bind_inr. intros Hstep. right.
    destruct (np_getitem ref_points key) as [e1|q] eqn:Hq.
    { rewrite bind_inl in Hstep. injection Hstep as <-. by eapply np_getitem_inl. }
    rewrite bind_inr in Hstep.
    destruct (np_getitem (ref2inp rs [padd q (ref_shift_of scale angle prop)]) 0)
      as [e2|b] eqn:Hb.
    { rewrite bind_inl in Hstep. injection Hstep as <-. by eapply np_getitem_inl. }
    rewrite bind_inr in Hstep.
    destruct (np_getitem (points lf) key) as [e3|p] eqn:Hp.
    { rewrite bind_inl in Hstep. injection Hstep as <-. by eapply np_getitem_inl. }
    by rewrite bind_inr in Hstep.
Qed.

Lemma Lambda_step_wraps `{Collaborators} scale rs (lf : Face) shifts k v i :
  face_wf lf ->
  shape_preserving (inp2ref rs) -> shape_preserving (ref2inp rs) ->
  resolve_key k = inr i -> -68 <= i <= 67 ->
  exists shifts', Lambda_step scale rs lf (inp2ref rs (points lf)) shifts k v = inr shifts'.
Proof.
  intros Hlf Hin Hout Hk Hi. unfold Lambda_step. destruct v as [angle prop].
  rewrite Hk, bind_inr.
  destruct (np_getitem_in_range (inp2ref rs (points lf)) i) as [q ->].
  { rewrite Hin, Hlf. lia. }
  rewrite bind_inr.
  destruct (np_getitem_in_range
              (ref2inp rs [padd q (ref_shift_of scale angle prop)]) 0) as [b ->].
  { rewrite Hout. cbn. lia. }
  rewrite bind_inr.
  destruct (np_getitem_in_range (points lf) i) as [p ->].
  { rewrite Hlf. lia. }
  rewrite bind_inr. by eexists.
Qed.

Lemma Lambda_loop_unknown_name `{Collaborators} scale rs lf ref_points specs s v :
  (ByName s, v) ∈ specs -> dict_get LANDMARK_NAMES s = None ->
  forall shifts,
    for_items (Lambda_step scale rs lf ref_points) specs shifts = inl KeyError \/
    for_items (Lambda_step scale rs lf ref_points) specs shifts = inl IndexError.
Proof.
  intros Hin Hs. induction specs as [|[k0 v0] specs IH]; intros shifts.
  - by apply elem_of_nil in Hin.
  - rewrite for_items_cons.
    destruct (Lambda_step scale rs lf ref_points shifts k0 v0) as [e|shifts'] eqn:Hstep.
    + rewrite bind_inl. apply Lambda_step_error in Hstep as [-> | ->]; [by left | by right].
    + rewrite bind_inr. apply elem_of_cons in Hin as [[= <- <-] | Hin].
      * by rewrite Lambda_step_unknown_name in Hstep.
      * by apply IH.
Qed.

Lemma Lambda_loop_first_unknown `{Collaborators} scale rs (lf : Face) pre s v post :
  face_wf lf ->
  shape_preserving (inp2ref rs) -> shape_preserving (ref2inp rs) ->
  dict_get LANDMARK_NAMES s = None ->
  (forall k v', (k, v') ∈ pre -> exists i, resolve_key k = inr i /\ -68 <= i <= 67) ->
  forall shifts,
    for_items (Lambda_step scale rs lf (inp2ref rs (points lf)))
      (pre ++ (ByName s, v) :: post) shifts = inl KeyError.
Proof.
  intros Hlf Hin Hout Hs. induction pre as [|[k0 v0] pre IH]; intros Hpre shifts.
  - cbn [app]. by rewrite for_items_cons, Lambda_step_unknown_name.
  - cbn [app]. rewrite for_items_cons.
    destruct (Hpre k0 v0) as (i & Hk0 & Hi); [by apply elem_of_cons; left |].
    destruct (Lambda_step_wraps scale rs lf shifts k0 v0 i) as [shifts' ->]; [done .. |].
    rewrite bind_inr. apply IH. intros k v' Hkv. apply (Hpre k v').
    by apply elem_of_cons; right.
Qed.

(** C8, as the code has it.  When [specs] holds a name that the landmark
    name table lacks, [Lambda.perform] fails, with a [KeyError] or with an
    [IndexError]; it is the [KeyError] of the name lookup when every entry
    iterated before that name resolves to an index in -68..67. *)
Theorem Lambda_perform_unknown_name `{Collaborators} (self : Lambda) (lf : Face)
    (w : World) (s : string) (v : R * R) :
  dict_get LANDMARK_NAMES s = None ->
  ((ByName s, v) ∈ Lambda_specs self ->
   (Lambda_perform self lf w).1 = inl KeyError \/
   (Lambda_perform self lf w).1 = inl IndexError) /\
  (forall pre post,
     Lambda_specs self = pre ++ (ByName s, v) :: post ->
     (forall k v', (k, v') ∈ pre -> exists i, resolve_key k = inr i /\ -68 <= i <= 67) ->
     face_wf lf ->
     shape_preserving (inp2ref (estimate (rs_state w (Lambda_reference_space self)) lf)) ->
     shape_preserving (ref2inp (estimate (rs_state w (Lambda_reference_space self)) lf)) ->
     (Lambda_perform self lf w).1 = inl KeyError).
Proof.
  intros Hs. unfold Lambda_perform, Lambda_shifts. rewrite rs_state_estimate.
  set (rs := estimate (rs_state w (Lambda_reference_space self)) lf).
  split.
  - intros Hin.
    destruct (Lambda_loop_unknown_name (Lambda_scale self) rs lf
                (inp2ref rs (points lf)) (Lambda_specs self) s v Hin Hs ([], []))
      as [-> | ->]; [by left | by right].
  - intros pre post -> Hpre Hlf Hin Hout.
    by rewrite (Lambda_loop_first_unknown (Lambda_scale self) rs lf pre s v post).
Qed.

(** The theorem on [Lambda(1, {-1: (0, 1), 'NOPE': (0, 1)})]. *)
Lemma Lambda_perform_unknown_name_witness :
  (@Lambda_perform Toy.collaborators
     (mkLambda 1 [ (ByIndex (-1), (0, 1)); (ByName "NOPE", (0, 1)) ]%R 1%positive)
     (Toy.face 0) Toy.world1).1 = inl KeyError.
Proof.
  assert (dict_get (@LANDMARK_NAMES Toy.collaborators) "NOPE"%string = None) as Hs
    by reflexivity.
  apply (proj2 (@Lambda_perform_unknown_name Toy.collaborators _ (Toy.face 0)
                  Toy.world1 "NOPE"%string (0, 1)%R Hs)
               [ (ByIndex (-1), (0, 1)%R) ] []).
  - reflexivity.
  - intros k v' Hin. apply list_elem_of_singleton in Hin. injection Hin as -> ->.
    exists (-1). split; [reflexivity | lia].
  - reflexivity.
  - intros ps. apply length_map.
  - intros ps. apply length_map.
Defined.

(** C8 does not hold as stated: with an out-of-range integer key in front of
    the unknown name, the call fails with the [IndexError] of that key. *)
Lemma Lambda_perform_unknown_name_after_bad_index :
  (ByName "NOPE", (0, 1)%R) ∈
    Lambda_specs (mkLambda 1 [ (ByIndex 68, (0, 1)); (ByName "NOPE", (0, 1)) ]%R 1%positive) /\
  dict_get (@LANDMARK_NAMES Toy.collaborators) "NOPE"%string = None /\
  (@Lambda_perform Toy.collaborators
     (mkLambda 1 [ (ByIndex 68, (0, 1)); (ByName "NOPE", (0, 1)) ]%R 1%positive)
     (Toy.face 0) Toy.world1).1 = inl IndexError /\
  (@Lambda_perform Toy.collaborators
     (mkLambda 1 [ (ByIndex 68, (0, 1)); (ByName "NOPE", (0, 1)) ]%R 1%positive)
     (Toy.face 0) Toy.world1).1 <> inl KeyError.
Proof.
  assert ((@Lambda_perform Toy.collaborators
     (mkLambda 1 [ (ByIndex 68, (0, 1)); (ByName "NOPE", (0, 1)) ]%R 1%positive)
     (Toy.face 0) Toy.world1).1 = inl IndexError) as Hrun by reflexivity.
  split; [| split; [| split]].
  - cbn. apply elem_of_cons. right. apply list_elem_of_singleton. reflexivity.
  - reflexivity.
  - exact Hrun.
  - rewrite Hrun. discriminate.
Qed.

(** ** The magnitude of a reference-space shift *)

Lemma ref_shift_norm (scale angle prop : R) :
  norm (ref_shift_of scale angle prop) = Rabs (prop * scale).
Proof.
  unfold norm, ref_shift_of, pscale. cbn [fst snd].
  rewrite <- sqrt_Rsqr_abs. f_equal.
  pose proof (sin2_cos2 (radians angle)) as Hsc. unfold Rsqr in *. nra.
Qed.

(** C3 on [Lambda(scale=1, specs={0: (0, 0.5)})]: the only entry, hence the
    one of largest magnitude, is shifted by [(0.5, 0)] in the reference
    space, a shift of norm 0.5 and not of norm [scale] = 1.  In general the
    norm is [|proportion * scale|]: nothing normalises the proportions. *)
Theorem Lambda_largest_shift_not_scale :
  ref_shift_of 1 0 (1 / 2) = (1 / 2, 0)%R /\
  norm (ref_shift_of 1 0 (1 / 2)) = (1 / 2)%R /\
  norm (ref_shift_of 1 0 (1 / 2)) <> 1%R /\
  forall scale angle prop, norm (ref_shift_of scale angle prop) = Rabs (prop * scale).
Proof.
  assert (norm (ref_shift_of 1 0 (1 / 2)) = (1 / 2)%R) as Hnorm.
  { rewrite ref_shift_norm. rewrite Rabs_pos_eq; lra. }
  split; [| split; [| split]].
  - unfold ref_shift_of, pscale, radians. cbn [fst snd].
    replace (0 * PI / 180)%R with 0%R by lra. rewrite cos_0, sin_0. f_equal; lra.
  - exact Hnorm.
  - rewrite Hnorm. lra.
  - apply ref_shift_norm.
Qed.

(** ** Preset actions *)

(** C4 on the code.  [Chubbify()] and [Smile()] take the default scales 0.2
    and 0.1, whereas [OpenEyes()] without a scale is a [TypeError]: its
    constructor has no default.  Each [perform] builds
    [Lambda(self.scale, specs)] on a new default reference space and returns
    what its [perform] returns. *)
Theorem presets_construct_and_delegate `{Collaborators} (scale : R) (lf : Face) (w : World) :
  Chubbify_init None = inr (mkChubbify (2 / 10)) /\
  Smile_init None = inr (mkSmile (1 / 10)) /\
  OpenEyes_init None = inl TypeError /\
  OpenEyes_init (Some scale) = inr (mkOpenEyes scale) /\
  Chubbify_perform (mkChubbify scale) lf w =
    Lambda_perform (Lambda_init scale Chubbify_specs None w).1 lf
      (Lambda_init scale Chubbify_specs None w).2 /\
  OpenEyes_perform (mkOpenEyes scale) lf w =
    Lambda_perform (Lambda_init scale OpenEyes_specs None w).1 lf
      (Lambda_init scale OpenEyes_specs None w).2 /\
  Smile_perform (mkSmile scale) lf w =
    Lambda_perform (Lambda_init scale Smile_specs None w).1 lf
      (Lambda_init scale Smile_specs None w).2.
Proof. repeat split. Qed.

(** ** LinearTransform *)

Lemma apply_mat_identity (p : point) :
  apply_mat (AffineTransform_init (1, 1)%R 0 0 (0, 0)%R) p = p.
Proof.
  destruct p as [x y]. unfold apply_mat, AffineTransform_init. cbn [fst snd].
  rewrite Rplus_0_l, cos_0, sin_0.
  destruct (Req_dec_T (x * 0 + y * 0 + 1 * 1) 0) as [Hw | _]; [exfalso; lra |].
  f_equal; field.
Qed.

Lemma AffineTransform_call_identity (coords : list point) :
  AffineTransform_call (AffineTransform_init (1, 1)%R 0 0 (0, 0)%R) coords = coords.
Proof.
  unfold AffineTransform_call. induction coords as [|p coords IH]; [done |].
  cbn [map]. by rewrite apply_mat_identity, IH.
Qed.

Lemma elem_of_py_range (n : nat) (i : Z) : i ∈ py_range n <-> 0 <= i < Z.of_nat n.
Proof.
  unfold py_range. rewrite list_elem_of_fmap. split.
  - intros (j & -> & Hj). apply elem_of_seq in Hj. lia.
  - intros Hi. exists (Z.to_nat i). split; [lia |]. apply elem_of_seq. lia.
Qed.

Lemma dict_comprehension_total {V} (f : Z -> Result V) (g : Z -> V) (keys : list Z) :
  (forall i, i ∈ keys -> f i = inr (g i)) ->
  forall d : dict Z V,
  exists d',
    dict_comprehension f keys d = inr d' /\
    (forall i, dict_get d' i = if decide (i ∈ keys) then Some (g i) else dict_get d i) /\
    (dict_wf d -> dict_wf d').
Proof.
  induction keys as [|i0 keys IH]; intros Hf d.
  - exists d. split; [done |]. split; [| done]. intros i.
    rewrite decide_False; [done |]. apply not_elem_of_nil.
  - cbn [dict_comprehension]. rewrite Hf by (apply elem_of_cons; by left).
    rewrite bind_inr.
    destruct (IH (fun i Hi => Hf i (list_elem_of_further _ _ _ Hi)) (dict_set d i0 (g i0)))
      as (d' & Hrun & Hget & Hwf).
    exists d'. split; [done |]. split.
    + intros i. rewrite Hget, dict_get_set.
      destruct (decide (i ∈ keys)) as [Hi | Hi].
      * rewrite decide_True; [done |]. apply elem_of_cons. by right.
      * destruct (decide (i = i0)) as [-> | Hne].
        -- rewrite decide_True; [done |]. apply elem_of_cons. by left.
        -- rewrite decide_False; [done |]. rewrite elem_of_cons. tauto.
    + intros Hd. apply Hwf. by apply dict_wf_set.
Qed.

Lemma row_at_lookup (a : list point) (i : Z) (x : point) :
  a !! Z.to_nat i = Some x -> row_at a i = x.
Proof. unfold row_at. by intros ->. Qed.

Lemma LinearTransform_identity_perform `{Collaborators} (lf : Face) (w : World)
    (l : positive) (eps : R) :
  face_wf lf ->
  Forall2 (close_to eps) (points lf)
    (ref2inp (estimate (rs_state w l) lf)
       (inp2ref (estimate (rs_state w l) lf) (points lf))) ->
  exists new_lf df,
    (LinearTransform_perform (mkLinearTransform 1 1 0 0 0 0 l) lf w).1 = inr (new_lf, df) /\
    Forall2 (close_to eps) (points lf) (points new_lf).
Proof.
  intros Hlf Hround.
  set (rs := estimate (rs_state w l) lf) in *.
  set (back := ref2inp rs (inp2ref rs (points lf))) in *.
  apply Forall2_same_length_lookup in Hround as [Hlen Hround].
  pose proof Hlf as Hlf'. unfold face_wf in Hlf'.
  assert (forall c : point -> R, forall i, i ∈ py_range 68 ->
    (t ← np_getitem back i; p ← lf_getitem lf i; inr (c (psub t p))) =
    inr (c (psub (row_at back i) (row_at (points lf) i)))) as Hf.
  { intros c i Hi. apply elem_of_py_range in Hi.
    assert (exists n : nat, i = Z.of_nat n /\ (n < 68)%nat) as (n & -> & Hn)
      by (exists (Z.to_nat i); lia).
    destruct (lookup_lt_is_Some_2 back n) as [q Hq]; [lia |].
    destruct (lookup_lt_is_Some_2 (points lf) n) as [p Hp]; [lia |].
    unfold lf_getitem.
    rewrite (row_at_lookup back (Z.of_nat n) q), (row_at_lookup (points lf) (Z.of_nat n) p)
      by (by rewrite Nat2Z.id).
    by rewrite (np_getitem_nonneg _ _ _ Hq), bind_inr,
      (np_getitem_nonneg _ _ _ Hp), bind_inr. }
  destruct (dict_comprehension_total _ _ (py_range 68) (Hf fst) [])
    as (xs & Hxs & Hgetx & Hwfx).
  destruct (dict_comprehension_total _ _ (py_range 68) (Hf snd) [])
    as (ys & Hys & Hgety & Hwfy).
  assert (forall (d : dict Z R) (g : Z -> R),
    (forall i, dict_get d i = if decide (i ∈ py_range 68) then Some (g i) else None) ->
    keys_in_range d) as Hrange.
  { intros d g Hd k Hk. apply dict_get_is_Some in Hk. rewrite Hd in Hk.
    destruct (decide (k ∈ py_range 68)) as [Hin | _]; [| by destruct Hk].
    apply elem_of_py_range in Hin. lia. }
  destruct (AbsoluteMove_offsets_in_range xs ys) as (offs & Hoffs & Hlen' & Hoff);
    [by apply Hwfx, NoDup_nil | by apply Hwfy, NoDup_nil
    | exact (Hrange xs _ Hgetx) | exact (Hrange ys _ Hgety) |].
  pose proof (AbsoluteMove_perform_offsets (mkAbsoluteMove xs ys) lf offs Hlf Hoffs Hlen')
    as Hrun. cbv zeta in Hrun.
  eexists _, _. split.
  - unfold LinearTransform_perform. cbn [LinearTransform_reference_space].
    rewrite rs_state_estimate. fold rs. unfold LinearTransform_shifts.
    cbn [scale_x scale_y rotation shear translation_x translation_y].
    rewrite AffineTransform_call_identity. fold back.
    rewrite Hxs, bind_inr, Hys, bind_inr. exact Hrun.
  - cbn [points]. apply Forall2_same_length_lookup.
    split; [by rewrite length_zip_with, Hlf', Hlen' |].
    intros i p p' Hp Hp'.
    assert (i < 68)%nat as Hi by (apply lookup_lt_Some in Hp; by rewrite <- Hlf).
    rewrite lookup_zip_with, Hp in Hp'. cbn [mbind option_bind] in Hp'.
    rewrite (Hoff i Hi) in Hp'. cbn [fmap option_map] in Hp'. injection Hp' as <-.
    destruct (lookup_lt_is_Some_2 back i) as [q Hq]; [lia |].
    assert (Z.of_nat i ∈ py_range 68) as Hin by (apply elem_of_py_range; lia).
    unfold shift_of. rewrite Hgetx, Hgety, !decide_True by done.
    rewrite (row_at_lookup back (Z.of_nat i) q), (row_at_lookup (points lf) (Z.of_nat i) p)
      by (by rewrite Nat2Z.id).
    destruct (Hround i p q Hp Hq) as [H1 H2]. unfold close_to, padd, psub in *.
    cbn [fst snd from_option] in *. unfold Datatypes.id.
    replace (p.1 + (q.1 - p.1) - p.1)%R with (q.1 - p.1)%R by lra.
    replace (p.2 + (q.2 - p.2) - p.2)%R with (q.2 - p.2)%R by lra.
    done.
Qed.

(** C5. On a face whose points survive the round trip through the fitted
    reference space within [eps] (in each coordinate), [LinearTransform]
    with identity parameters returns a face whose 68 landmarks are within
    [eps] of the input's. *)
Theorem LinearTransform_identity `{Collaborators} (lf : Face) (w : World)
    (l : positive) (eps : R) :
  face_wf lf ->
  Forall2 (close_to eps) (points lf)
    (ref2inp (estimate (rs_state w l) lf)
       (inp2ref (estimate (rs_state w l) lf) (points lf))) ->
  exists new_lf df,
    (LinearTransform_perform (LinearTransform_init None None None None None None (Some l) w).1
       lf w).1 = inr (new_lf, df) /\
    length (points new_lf) = 68%nat /\
    Forall2 (close_to eps) (points lf) (points new_lf).
Proof.
  intros Hlf Hround.
  destruct (LinearTransform_identity_perform lf w l eps Hlf Hround)
    as (new_lf & df & Hrun & Hclose).
  exists new_lf, df. split; [exact Hrun |]. split; [| done].
  apply Forall2_length in Hclose. by rewrite <- Hclose.
Qed.

(** The theorem on the small instance, whose two maps are exact inverses:
    tolerance 0. *)
Lemma LinearTransform_identity_witness :
  exists new_lf df,
    (@LinearTransform_perform Toy.collaborators
       (@LinearTransform_init Toy.collaborators None None None None None None
          (Some 1%positive) Toy.world1).1
       (Toy.face 2) Toy.world1).1 = inr (new_lf, df) /\
    length (points new_lf) = 68%nat /\
    Forall2 (close_to 0) (points (Toy.face 2)) (points new_lf).
Proof.
  apply (@LinearTransform_identity Toy.collaborators (Toy.face 2) Toy.world1 1%positive 0%R).
  - reflexivity.
  - generalize (@estimate Toy.collaborators
                  (@rs_state Toy.collaborators Toy.world1 1%positive) (Toy.face 2)).
    intros [a b]. cbn [inp2ref ref2inp Toy.collaborators].
    apply Forall2_fmap_r, Forall2_fmap_r, Forall_Forall2_diag, Forall_forall.
    intros [x y] _. unfold close_to, padd, psub. cbv [fst snd].
    split.
    + match goal with |- (Rabs ?e <= 0)%R => replace e with 0%R by lra end.
      rewrite Rabs_R0. lra.
    + match goal with |- (Rabs ?e <= 0)%R => replace e with 0%R by lra end.
      rewrite Rabs_R0. lra.
Defined.

(** ** Fitting the reference space *)

Lemma Lambda_perform_world `{Collaborators} (self : Lambda) (lf : Face) (w : World) :
  (Lambda_perform self lf w).2 = rs_estimate (Lambda_reference_space self) lf w.
Proof.
  unfold Lambda_perform.
  by destruct (Lambda_shifts _ _ _ _) as [e | [xs ys]].
Qed.

Lemma LinearTransform_perform_world `{Collaborators} (self : LinearTransform)
    (lf : Face) (w : World) :
  (LinearTransform_perform self lf w).2 =
    rs_estimate (LinearTransform_reference_space self) lf w.
Proof.
  unfold LinearTransform_perform.
  by destruct (LinearTransform_shifts _ _ _) as [e | [xs ys]].
Qed.

Lemma Lambda_perform_result `{Collaborators} (self : Lambda) (lf : Face) (w : World) :
  (Lambda_perform self lf w).1 =
    match Lambda_shifts (Lambda_scale self) (Lambda_specs self)
            (estimate (rs_state w (Lambda_reference_space self)) lf) lf with
    | inl e => inl e
    | inr (xs, ys) => AbsoluteMove_perform (AbsoluteMove_init (Some xs) (Some ys)) lf
    end.
Proof.
  unfold Lambda_perform. rewrite rs_state_estimate.
  by destruct (Lambda_shifts _ _ _ _) as [e | [xs ys]].
Qed.

Lemma LinearTransform_perform_result `{Collaborators} (self : LinearTransform)
    (lf : Face) (w : World) :
  (LinearTransform_perform self lf w).1 =
    match LinearTransform_shifts self
            (estimate (rs_state w (LinearTransform_reference_space self)) lf) lf with
    | inl e => inl e
    | inr (xs, ys) => AbsoluteMove_perform (AbsoluteMove_init (Some xs) (Some ys)) lf
    end.
Proof.
  unfold LinearTransform_perform. rewrite rs_state_estimate.
  by destruct (LinearTransform_shifts _ _ _) as [e | [xs ys]].
Qed.

Lemma rs_new_fresh `{Collaborators} (w : World) : (rs_new w).1 ∉ dom (rs_heap w).
Proof. unfold rs_new. cbn [fst]. apply is_fresh. Qed.

(** C9, as the code has it.  The reference space of a [Lambda] or
    [LinearTransform] is fixed by the constructor: the object the caller
    passed (the store is left alone), or else a new default one, added to
    the store at a reference not in use.  Every [perform] call refits that one
    object to the face it is given, exactly once (one more entry in the log
    of [estimate] calls), and leaves the fit in the object; nothing else in
    the store changes.  When [estimate] computes the fit from the face alone,
    the result of a call does not depend on what the store held before. *)
Theorem perform_fits_once `{Collaborators} (lam : Lambda) (lt : LinearTransform)
    (lf : Face) (w : World) :
  (forall scale specs l,
     Lambda_reference_space (Lambda_init scale specs (Some l) w).1 = l /\
     (Lambda_init scale specs (Some l) w).2 = w /\
     (Lambda_reference_space (Lambda_init scale specs None w).1 ∉ dom (rs_heap w)) /\
     (Lambda_init scale specs None w).2 =
       mkWorld (<[Lambda_reference_space (Lambda_init scale specs None w).1 :=
                    DefaultRS]> (rs_heap w))
               (estimate_log w)) /\
  (forall sx sy rot sh tx ty l,
     LinearTransform_reference_space
       (LinearTransform_init sx sy rot sh tx ty (Some l) w).1 = l /\
     (LinearTransform_init sx sy rot sh tx ty (Some l) w).2 = w /\
     (LinearTransform_reference_space
        (LinearTransform_init sx sy rot sh tx ty None w).1 ∉ dom (rs_heap w)) /\
     (LinearTransform_init sx sy rot sh tx ty None w).2 =
       mkWorld (<[LinearTransform_reference_space
                    (LinearTransform_init sx sy rot sh tx ty None w).1 :=
                    DefaultRS]> (rs_heap w))
               (estimate_log w)) /\
  (Lambda_perform lam lf w).2 =
    mkWorld (<[Lambda_reference_space lam :=
                 estimate (rs_state w (Lambda_reference_space lam)) lf]> (rs_heap w))
            (estimate_log w ++ [(Lambda_reference_space lam, lf)]) /\
  (LinearTransform_perform lt lf w).2 =
    mkWorld (<[LinearTransform_reference_space lt :=
                 estimate (rs_state w (LinearTransform_reference_space lt)) lf]> (rs_heap w))
            (estimate_log w ++ [(LinearTransform_reference_space lt, lf)]) /\
  ((forall (s s' : RS) (f : Face), estimate s f = estimate s' f) ->
   forall w' : World,
     (Lambda_perform lam lf w).1 = (Lambda_perform lam lf w').1 /\
     (LinearTransform_perform lt lf w).1 = (LinearTransform_perform lt lf w').1).
Proof.
  split; [| split; [| split; [| split]]].
  - intros scale specs l. split; [done |]. split; [done |].
    change (Lambda_init scale specs None w)
      with (mkLambda scale specs (rs_new w).1, (rs_new w).2).
    cbn [fst snd Lambda_reference_space]. split; [apply rs_new_fresh | done].
  - intros sx sy rot sh tx ty l. split; [done |]. split; [done |].
    change (LinearTransform_init sx sy rot sh tx ty None w)
      with (mkLinearTransform (default 1%R sx) (default 1%R sy) (default 0%R rot)
              (default 0%R sh) (default 0%R tx) (default 0%R ty) (rs_new w).1,
            (rs_new w).2).
    cbn [fst snd LinearTransform_reference_space]. split; [apply rs_new_fresh | done].
  - apply Lambda_perform_world.
  - apply LinearTransform_perform_world.
  - intros Hfit w'. rewrite !Lambda_perform_result, !LinearTransform_perform_result.
    rewrite (Hfit (rs_state w (Lambda_reference_space lam))
                  (rs_state w' (Lambda_reference_space lam))).
    by rewrite (Hfit (rs_state w (LinearTransform_reference_space lt))
                     (rs_state w' (LinearTransform_reference_space lt))).
Qed.

(** The theorem on the small instance, whose fit is the first landmark of
    the face: the result is the same from a store where the object was
    fitted to another face before. *)
Lemma perform_fits_once_witness :
  (@Lambda_perform Toy.collaborators Toy.lambda (Toy.face 1) Toy.world1).1 =
  (@Lambda_perform Toy.collaborators Toy.lambda (Toy.face 1)
     (@rs_estimate Toy.collaborators 1%positive (Toy.face 2) Toy.world1)).1.
Proof.
  refine (proj1 (proj2 (proj2 (proj2 (proj2
    (@perform_fits_once Toy.collaborators Toy.lambda
       (mkLinearTransform 1 1 0 0 0 0 1%positive) (Toy.face 1) Toy.world1)))) _
    (@rs_estimate Toy.collaborators 1%positive (Toy.face 2) Toy.world1))).
  intros s s' f. reflexivity.
Defined.

(** C9 does not hold as stated: the two [perform] calls of one [Lambda] on
    two faces fit the same reference space object (the log names object 1
    twice), and in between that object holds the fit of the first face. *)
Lemma Lambda_reference_space_reused :
  let lam := (@Lambda_init Toy.collaborators 1 [] None Toy.world0).1 in
  let w1 := (@Lambda_init Toy.collaborators 1 [] None Toy.world0).2 in
  let w2 := (@Lambda_perform Toy.collaborators lam (Toy.face 1) w1).2 in
  let w3 := (@Lambda_perform Toy.collaborators lam (Toy.face 2) w2).2 in
  estimate_log w3 = [(1%positive, Toy.face 1); (1%positive, Toy.face 2)] /\
  rs_heap w1 !! 1%positive = Some (0, 0)%R /\
  rs_heap w2 !! 1%positive = Some (INR 0, 1%R) /\
  (INR 0, 1%R) <> (0, 0)%R.
Proof.
  cbv zeta. split; [reflexivity |]. split; [reflexivity |]. split; [reflexivity |].
  intros Heq. injection Heq as Heq. lra.
Qed.

(** * Further properties of the actions *)

(** ** AbsoluteMove *)

Lemma padd_zero (p : point) : padd p (0, 0)%R = p.
Proof. destruct p as [x y]. unfold padd. cbn [fst snd]. f_equal; lra. Qed.

Lemma zip_with_padd_zeros (ps : list point) :
  zip_with padd ps (np_zeros (length ps)) = ps.
Proof.
  induction ps as [|p ps IH]; [done |].
  cbn [length np_zeros replicate zip_with]. rewrite padd_zero. f_equal. exact IH.
Qed.

(** [AbsoluteMove()] and [AbsoluteMove({}, {})] are the same action, and on
    a face of 68 landmarks it returns the landmarks as they are; the image is
    warped by the field generated from identical correspondences. *)
Theorem AbsoluteMove_no_shifts `{Collaborators} (lf : Face) :
  face_wf lf ->
  AbsoluteMove_init (Some []) (Some []) = AbsoluteMove_init None None /\
  AbsoluteMove_perform (AbsoluteMove_init None None) lf =
    let df := interpolate (img_shape (img lf)) (points lf) (points lf) true
                {[ "function"%string := PyStr "linear" ]} in
    inr (mkLandmarkFace (points lf) (warp df (img lf)), df).
Proof.
  intros Hlf. split; [reflexivity |].
  rewrite (AbsoluteMove_perform_offsets _ lf (np_zeros 68)); [| done | done |].
  - cbv zeta. unfold face_wf in Hlf. rewrite <- Hlf, zip_with_padd_zeros. done.
  - apply length_replicate.
Qed.

Lemma AbsoluteMove_no_shifts_witness :
  (@AbsoluteMove_perform Toy.collaborators (AbsoluteMove_init None None) (Toy.face 0)) =
    inr (Toy.face 0,
         (points (Toy.face 0), points (Toy.face 0),
          {[ "function"%string := PyStr "linear" ]})).
Proof.
  refine (proj2 (@AbsoluteMove_no_shifts Toy.collaborators (Toy.face 0) _)).
  reflexivity.
Defined.

Lemma np_add_length (a b c : list point) :
  np_add a b = inr c -> length b <> 1%nat -> length c = length b.
Proof.
  unfold np_add. case_bool_decide as Hlen.
  - intros [= <-] _. rewrite length_zip_with. lia.
  - destruct a as [|p [|p' a]]; destruct b as [|q [|q' b]]; intros [= <-] Hb;
      cbn [length] in *; rewrite ?length_map; done.
Qed.

Lemma AbsoluteMove_offsets_length (self : AbsoluteMove) (offsets : list point) :
  AbsoluteMove_offsets self = inr offsets -> length offsets = 68%nat.
Proof.
  unfold AbsoluteMove_offsets.
  change (for_items np_setitem_col0) with (for_items (np_setitem_with (fun v p => (v, p.2)))).
  change (for_items np_setitem_col1) with (for_items (np_setitem_with (fun v p => (p.1, v)))).
  destruct (for_items_setitem_cases (fun v p => (v, p.2)) (x_shifts self) (np_zeros 68))
    as [-> | (o1 & -> & Hlen1)]; [done |].
  rewrite bind_inr.
  destruct (for_items_setitem_cases (fun v p => (p.1, v)) (y_shifts self) o1)
    as [-> | (o2 & -> & Hlen2)]; [done |].
  intros [= <-]. rewrite Hlen2, Hlen1. apply length_replicate.
Qed.

(** Whenever [AbsoluteMove.perform] returns, the face it returns has exactly
    68 landmarks, whatever the shift maps and the input face. *)
Theorem AbsoluteMove_perform_keeps_68 `{Collaborators} (self : AbsoluteMove) (lf : Face)
    (new_lf : Face) (df : DF) :
  AbsoluteMove_perform self lf = inr (new_lf, df) ->
  length (points new_lf) = 68%nat.
Proof.
  unfold AbsoluteMove_perform, pts2inst.
  destruct (AbsoluteMove_offsets self) as [e | offsets] eqn:Hoffs; [done |].
  apply AbsoluteMove_offsets_length in Hoffs.
  rewrite bind_inr.
  destruct (np_add (points lf) offsets) as [e | new_points] eqn:Hadd; [done |].
  apply np_add_length in Hadd; [| lia].
  rewrite bind_inr. cbv zeta.
  destruct (DisplacementField_generate _ _ _ _ _) as [e | df']; [done |].
  rewrite bind_inr. intros [= <- _]. cbn [points]. lia.
Qed.

Lemma AbsoluteMove_perform_keeps_68_witness :
  exists new_lf df,
    @AbsoluteMove_perform Toy.collaborators
      (AbsoluteMove_init (Some [(-1, 5%R)]) None) (Toy.face 0) = inr (new_lf, df) /\
    length (points new_lf) = 68%nat.
Proof.
  eexists _, _. split; [reflexivity |].
  eapply (@AbsoluteMove_perform_keeps_68 Toy.collaborators
            (AbsoluteMove_init (Some [(-1, 5%R)]) None) (Toy.face 0)).
  reflexivity.
Defined.

Lemma np_index_wrap_key (k : Z) :
  -68 <= k -> np_index 68 (wrap_key k) = np_index 68 k.
Proof.
  intros Hk. unfold wrap_key. case_bool_decide as Hneg; [| done].
  destruct (decide (k + 68 < 68)) as [Hlt | Hge].
  - rewrite np_index_nonneg, np_index_negative by lia. done.
  - lia.
Qed.

Lemma for_items_setitem_wrap_keys (f : R -> point -> point) (d : dict Z R) :
  forall a : list point,
    length a = 68%nat ->
    (forall k, k ∈ dict_keys d -> -68 <= k) ->
    for_items (np_setitem_with f) (wrap_keys d) a = for_items (np_setitem_with f) d a.
Proof.
  induction d as [|[k v] d IH]; intros a Hlen Hkeys; [done |].
  change (wrap_keys ((k, v) :: d)) with ((wrap_key k, v) :: wrap_keys d).
  rewrite !for_items_cons, !np_setitem_with_eq, Hlen.
  rewrite np_index_wrap_key
    by (apply Hkeys; rewrite dict_keys_cons; apply elem_of_cons; by left).
  destruct (np_index 68 k) as [e | i]; [done |].
  rewrite !bind_inr. apply IH.
  - by rewrite length_alter.
  - intros k' Hk'. apply Hkeys. rewrite dict_keys_cons. apply elem_of_cons. by right.
Qed.

(** A key [k] in -68..-1 of a shift map stands for landmark [68 + k]:
    replacing every negative key by the landmark it addresses does not change
    what [AbsoluteMove.perform] returns (or how it fails). *)
Theorem AbsoluteMove_negative_keys_wrap `{Collaborators} (xs ys : dict Z R) (lf : Face) :
  (forall k, k ∈ dict_keys xs \/ k ∈ dict_keys ys -> -68 <= k) ->
  AbsoluteMove_perform (AbsoluteMove_init (Some (wrap_keys xs)) (Some (wrap_keys ys))) lf =
  AbsoluteMove_perform (AbsoluteMove_init (Some xs) (Some ys)) lf.
Proof.
  intros Hkeys.
  change (AbsoluteMove_init (Some xs) (Some ys)) with (mkAbsoluteMove xs ys).
  change (AbsoluteMove_init (Some (wrap_keys xs)) (Some (wrap_keys ys)))
    with (mkAbsoluteMove (wrap_keys xs) (wrap_keys ys)).
  unfold AbsoluteMove_perform. f_equal.
  unfold AbsoluteMove_offsets. cbn [x_shifts y_shifts].
  change (for_items np_setitem_col0) with (for_items (np_setitem_with (fun v p => (v, p.2)))).
  change (for_items np_setitem_col1) with (for_items (np_setitem_with (fun v p => (p.1, v)))).
  rewrite for_items_setitem_wrap_keys;
    [| apply length_replicate | intros k Hk; apply Hkeys; by left].
  destruct (for_items_setitem_cases (fun v p => (v, p.2)) xs (np_zeros 68))
    as [-> | (o1 & -> & Hlen1)]; [done |].
  rewrite !bind_inr. apply for_items_setitem_wrap_keys.
  - rewrite Hlen1. apply length_replicate.
  - intros k Hk. apply Hkeys. by right.
Qed.

(** [{-1: 5.0}] and [{67: 5.0}]. *)
Lemma AbsoluteMove_negative_keys_wrap_witness :
  @AbsoluteMove_perform Toy.collaborators
    (AbsoluteMove_init (Some [(67, 5%R)]) (Some [])) (Toy.face 0) =
  @AbsoluteMove_perform Toy.collaborators
    (AbsoluteMove_init (Some [(-1, 5%R)]) (Some [])) (Toy.face 0).
Proof.
  apply (@AbsoluteMove_negative_keys_wrap Toy.collaborators [(-1, 5%R)] [] (Toy.face 0)).
  intros k [Hk | Hk].
  - apply list_elem_of_singleton in Hk. cbn in Hk. lia.
  - by apply elem_of_nil in Hk.
Defined.

Lemma AbsoluteMove_perform_moved `{Collaborators} (xs ys : dict Z R) (lf : Face) :
  face_wf lf -> dict_wf xs -> dict_wf ys ->
  keys_in_range xs -> keys_in_range ys ->
  exists new_lf df,
    AbsoluteMove_perform (mkAbsoluteMove xs ys) lf = inr (new_lf, df) /\
    face_wf new_lf /\
    forall (i : nat) (p : point),
      points lf !! i = Some p ->
      points new_lf !! i = Some (padd p (shift_of xs i, shift_of ys i)).
Proof.
  intros Hlf Hwx Hwy Hx Hy.
  destruct (AbsoluteMove_offsets_in_range xs ys) as (offs & Hoffs & Hlen & Hget);
    [done .. |].
  rewrite (AbsoluteMove_perform_offsets _ lf offs) by done.
  eexists _, _. split; [reflexivity |]. unfold face_wf. cbn [points]. split.
  { rewrite length_zip_with, Hlf, Hlen. done. }
  intros i p Hp. rewrite lookup_zip_with, Hp. cbn.
  rewrite Hget; [done |]. apply lookup_lt_Some in Hp. by rewrite <- Hlf.
Qed.

(** The face returned by an [AbsoluteMove] is again a face that
    [AbsoluteMove] accepts, and the shifts stack in the order applied: after
    moving by [(xs1, ys1)] and then by [(xs2, ys2)], landmark [i] is
    [(points[i] + shift1[i]) + shift2[i]]. *)
Theorem AbsoluteMove_perform_twice `{Collaborators} (xs1 ys1 xs2 ys2 : dict Z R)
    (lf : Face) :
  face_wf lf ->
  dict_wf xs1 -> dict_wf ys1 -> keys_in_range xs1 -> keys_in_range ys1 ->
  dict_wf xs2 -> dict_wf ys2 -> keys_in_range xs2 -> keys_in_range ys2 ->
  exists lf1 df1 lf2 df2,
    AbsoluteMove_perform (AbsoluteMove_init (Some xs1) (Some ys1)) lf = inr (lf1, df1) /\
    AbsoluteMove_perform (AbsoluteMove_init (Some xs2) (Some ys2)) lf1 = inr (lf2, df2) /\
    forall (i : nat) (p : point),
      points lf !! i = Some p ->
      points lf2 !! i =
        Some (padd (padd p (shift_of xs1 i, shift_of ys1 i))
                   (shift_of xs2 i, shift_of ys2 i)).
Proof.
  intros Hlf Hw1 Hw1' Hr1 Hr1' Hw2 Hw2' Hr2 Hr2'.
  destruct (AbsoluteMove_perform_moved xs1 ys1 lf) as (lf1 & df1 & Hrun1 & Hlf1 & Hget1);
    [done .. |].
  destruct (AbsoluteMove_perform_moved xs2 ys2 lf1) as (lf2 & df2 & Hrun2 & Hlf2 & Hget2);
    [done .. |].
  exists lf1, df1, lf2, df2. split; [exact Hrun1 |]. split; [exact Hrun2 |].
  intros i p Hp. exact (Hget2 i _ (Hget1 i p Hp)).
Qed.

Lemma AbsoluteMove_perform_twice_witness :
  exists lf1 df1 lf2 df2,
    @AbsoluteMove_perform Toy.collaborators
      (AbsoluteMove_init (Some [(3, 2%R)]) (Some [])) (Toy.face 0) = inr (lf1, df1) /\
    @AbsoluteMove_perform Toy.collaborators
      (AbsoluteMove_init (Some [(3, 1%R)]) (Some [(5, 4%R)])) lf1 = inr (lf2, df2) /\
    forall (i : nat) (p : point),
      points (Toy.face 0) !! i = Some p ->
      points lf2 !! i =
        Some (padd (padd p (shift_of [(3, 2%R)] i, shift_of [] i))
                   (shift_of [(3, 1%R)] i, shift_of [(5, 4%R)] i)).
Proof.
  apply (@AbsoluteMove_perform_twice Toy.collaborators).
  - reflexivity.
  - apply NoDup_singleton.
  - apply NoDup_nil_2.
  - intros k Hk. apply list_elem_of_singleton in Hk. cbn in Hk. lia.
  - intros k Hk. by apply elem_of_nil in Hk.
  - apply NoDup_singleton.
  - apply NoDup_singleton.
  - intros k Hk. apply list_elem_of_singleton in Hk. cbn in Hk. lia.
  - intros k Hk. apply list_elem_of_singleton in Hk. cbn in Hk. lia.
Defined.

(** ** Lambda *)

Lemma for_items_invariant {K V S} (P : S -> Prop) (body : S -> K -> V -> Result S)
    (d : dict K V) :
  (forall s k v s', (k, v) ∈ d -> P s -> body s k v = inr s' -> P s') ->
  forall s s', P s -> for_items body d s = inr s' -> P s'.
Proof.
  induction d as [|[k v] d IH]; intros Hstep s s' Hs.
  - by intros [= <-].
  - rewrite for_items_cons. destruct (body s k v) as [e | s1] eqn:Hbody; [done |].
    rewrite bind_inr. apply IH.
    + intros s0 k0 v0 s0' Hin. apply Hstep. apply elem_of_cons. by right.
    + eapply Hstep; [| done | done]. apply elem_of_cons. by left.
Qed.

Lemma for_items_inr_all {K V S} (body : S -> K -> V -> Result S) (d : dict K V) :
  forall s s', for_items body d s = inr s' ->
  forall k v, (k, v) ∈ d -> exists s0 s1, body s0 k v = inr s1.
Proof.
  induction d as [|[k0 v0] d IH]; intros s s' Hrun k v Hin.
  - by apply elem_of_nil in Hin.
  - rewrite for_items_cons in Hrun.
    destruct (body s k0 v0) as [e | s1] eqn:Hbody; [done |].
    rewrite bind_inr in Hrun. apply elem_of_cons in Hin as [[= -> ->] | Hin].
    + by exists s, s1.
    + by eapply IH.
Qed.

Lemma Lambda_step_inr `{Collaborators} scale rs (lf : Face) ref_points shifts k v shifts' :
  Lambda_step scale rs lf ref_points shifts k v = inr shifts' ->
  exists key sx sy,
    resolve_key k = inr key /\
    - Z.of_nat (length (points lf)) <= key < Z.of_nat (length (points lf)) /\
    shifts' = (dict_set shifts.1 key sx, dict_set shifts.2 key sy).
Proof.
  unfold Lambda_step. destruct v as [angle prop].
  destruct (resolve_key k) as [e | key]; [done |]. rewrite bind_inr.
  destruct (np_getitem ref_points key) as [e | q]; [done |]. rewrite bind_inr.
  destruct (np_getitem (ref2inp rs [padd q (ref_shift_of scale angle prop)]) 0)
    as [e | b]; [done |]. rewrite bind_inr.
  destruct (np_getitem (points lf) key) as [e | p] eqn:Hp; [done |]. rewrite bind_inr.
  intros [= <-]. eexists key, _, _. split; [done |]. split; [| done].
  unfold np_getitem in Hp.
  destruct (np_index (length (points lf)) key) as [e | i] eqn:Hi; [done |].
  apply np_index_inr in Hi. lia.
Qed.

Lemma Lambda_loop_wf `{Collaborators} scale rs (lf : Face) ref_points specs xs ys :
  for_items (Lambda_step scale rs lf ref_points) specs ([], []) = inr (xs, ys) ->
  dict_wf xs /\ dict_wf ys.
Proof.
  apply (for_items_invariant (fun s => dict_wf s.1 /\ dict_wf s.2)).
  - intros s k v s' _ [Hx Hy] Hstep.
    apply Lambda_step_inr in Hstep as (key & sx & sy & _ & _ & ->).
    split; by apply dict_wf_set.
  - split; apply NoDup_nil_2.
Qed.

Lemma mapped_back_is_Some `{Collaborators} (rs : RS) (lf : Face) scale (i : nat) angle prop :
  face_wf lf -> shape_preserving (inp2ref rs) -> shape_preserving (ref2inp rs) ->
  (i < 68)%nat -> is_Some (mapped_back rs lf scale i angle prop).
Proof.
  intros Hlf Hin Hout Hi. unfold mapped_back.
  destruct (lookup_lt_is_Some_2 (inp2ref rs (points lf)) i) as [q ->].
  { by rewrite Hin, Hlf. }
  cbn. apply lookup_lt_is_Some_2. rewrite Hout. cbn. lia.
Qed.

Lemma spec_pixel_shift_mapped_back `{Collaborators} (rs : RS) (lf : Face) scale
    (i : nat) angle prop (p : point) :
  points lf !! i = Some p ->
  spec_pixel_shift rs lf scale i angle prop =
    (fun b => psub b p) <$> mapped_back rs lf scale i angle prop.
Proof.
  intros Hp. unfold spec_pixel_shift, mapped_back, ref_shift_of.
  destruct (inp2ref rs (points lf) !! i) as [q |]; [| done]. cbn.
  destruct (ref2inp rs _ !! 0%nat) as [b |]; [| done]. cbn. by rewrite Hp.
Qed.

Lemma padd_psub (p b : point) : padd p ((psub b p).1, (psub b p).2) = b.
Proof. destruct p, b. unfold padd, psub. cbn [fst snd]. f_equal; lra. Qed.

Lemma Lambda_perform_moved `{Collaborators} (self : Lambda) (lf : Face) (w : World) :
  face_wf lf ->
  shape_preserving (inp2ref (estimate (rs_state w (Lambda_reference_space self)) lf)) ->
  shape_preserving (ref2inp (estimate (rs_state w (Lambda_reference_space self)) lf)) ->
  specs_resolve (Lambda_specs self) ->
  exists new_lf df,
    (Lambda_perform self lf w).1 = inr (new_lf, df) /\
    face_wf new_lf /\
    forall (i : nat) (p : point),
      points lf !! i = Some p ->
      points new_lf !! i =
        match entry_for (Lambda_specs self) (Z.of_nat i) with
        | Some (angle, prop) =>
            mapped_back (estimate (rs_state w (Lambda_reference_space self)) lf) lf
              (Lambda_scale self) i angle prop
        | None => Some p
        end.
Proof.
  intros Hlf Hin Hout Hres.
  set (rs := estimate (rs_state w (Lambda_reference_space self)) lf) in *.
  destruct (Lambda_loop (Lambda_scale self) rs lf (Lambda_specs self) Hlf Hin Hout Hres
              ([], [])) as (xs & ys & Hrun & Hget).
  destruct (Lambda_loop_wf _ _ _ _ _ _ _ Hrun) as [Hwx Hwy].
  assert (forall i, is_Some (entry_for (Lambda_specs self) i) -> 0 <= i <= 67) as Hrange.
  { intros i [v Hv]. apply entry_for_Some in Hv as (k & Hk & Hi).
    destruct (Hres k v Hk) as (i' & Hi' & ?). congruence. }
  assert (keys_in_range xs /\ keys_in_range ys) as [Hkx Hky].
  { split; intros k Hk; apply dict_get_is_Some in Hk; apply Hrange;
      destruct (Hget k) as [Hx Hy]; [rewrite Hx in Hk | rewrite Hy in Hk];
      (destruct (entry_for (Lambda_specs self) k); [by eexists | by destruct Hk]). }
  destruct (AbsoluteMove_perform_moved xs ys lf) as (new_lf & df & Hperf & Hnew & Hpts);
    [done .. |].
  exists new_lf, df. split; [| split; [done |]].
  - rewrite Lambda_perform_result. fold rs. unfold Lambda_shifts. by rewrite Hrun.
  - intros i p Hp. rewrite (Hpts i p Hp). unfold shift_of.
    destruct (Hget (Z.of_nat i)) as [-> ->]. rewrite Nat2Z.id.
    destruct (entry_for (Lambda_specs self) (Z.of_nat i)) as [[angle prop] |].
    + rewrite (spec_pixel_shift_mapped_back rs lf _ i angle prop p Hp).
      destruct (mapped_back_is_Some rs lf (Lambda_scale self) i angle prop)
        as [b ->]; [done .. | |].
      { apply lookup_lt_Some in Hp. by rewrite <- Hlf. }
      change (Some (padd p ((psub b p).1, (psub b p).2)) = Some b).
      by rewrite padd_psub.
    + change (Some (padd p (0, 0)%R) = Some p). by rewrite padd_zero.
Qed.



(** With no entry in [specs], [Lambda.perform] still fits its reference
    space to the face, and returns the landmarks as they are. *)
Theorem Lambda_empty_specs `{Collaborators} (scale : R) (l : positive) (lf : Face)
    (w : World) :
  face_wf lf ->
  Lambda_perform (mkLambda scale [] l) lf w =
    (let df := interpolate (img_shape (img lf)) (points lf) (points lf) true
                 {[ "function"%string := PyStr "linear" ]} in
     inr (mkLandmarkFace (points lf) (warp df (img lf)), df),
     rs_estimate l lf w).
Proof.
  intros Hlf. unfold Lambda_perform, Lambda_shifts. cbn [Lambda_specs for_items].
  f_equal.
  change (AbsoluteMove_init (Some []) (Some [])) with (mkAbsoluteMove [] []).
  rewrite (AbsoluteMove_perform_offsets _ lf (np_zeros 68)); [| done | done |].
  - cbv zeta. unfold face_wf in Hlf. rewrite <- Hlf, zip_with_padd_zeros. done.
  - apply length_replicate.
Qed.

Lemma Lambda_empty_specs_witness :
  @Lambda_perform Toy.collaborators (mkLambda 1 [] 1%positive) (Toy.face 0) Toy.world1 =
    (inr (Toy.face 0,
          (points (Toy.face 0), points (Toy.face 0),
           {[ "function"%string := PyStr "linear" ]})),
     @rs_estimate Toy.collaborators 1%positive (Toy.face 0) Toy.world1).
Proof.
  refine (@Lambda_empty_specs Toy.collaborators 1 1%positive (Toy.face 0) Toy.world1 _).
  reflexivity.
Defined.

Lemma ref_shift_of_scale_zero (angle prop : R) : ref_shift_of 0 angle prop = (0, 0)%R.
Proof. unfold ref_shift_of, pscale. cbn [fst snd]. f_equal; lra. Qed.

(** With [scale = 0] the angles and proportions do not matter: when the
    reference space maps each single reference point back to the landmark it
    came from, [Lambda.perform] returns the landmarks as they are. *)
Theorem Lambda_scale_zero `{Collaborators} (specs : LandmarkSpec) (l : positive)
    (lf : Face) (w : World) :
  face_wf lf ->
  shape_preserving (inp2ref (estimate (rs_state w l) lf)) ->
  shape_preserving (ref2inp (estimate (rs_state w l) lf)) ->
  specs_resolve specs ->
  (forall (i : nat) (q : point),
     inp2ref (estimate (rs_state w l) lf) (points lf) !! i = Some q ->
     ref2inp (estimate (rs_state w l) lf) [q] !! 0%nat = points lf !! i) ->
  exists new_lf df,
    (Lambda_perform (mkLambda 0 specs l) lf w).1 = inr (new_lf, df) /\
    points new_lf = points lf.
Proof.
  intros Hlf Hin Hout Hres Hround.
  destruct (Lambda_perform_moved (mkLambda 0 specs l) lf w Hlf Hin Hout Hres)
    as (new_lf & df & Hrun & Hnew & Hpts).
  exists new_lf, df. split; [exact Hrun |].
  apply list_eq_same_length with 68%nat; [done | done |].
  intros i p' p Hi Hp' Hp. rewrite (Hpts i p Hp) in Hp'.
  cbn [Lambda_specs Lambda_scale Lambda_reference_space] in Hp'.
  destruct (entry_for specs (Z.of_nat i)) as [[angle prop] |]; [| congruence].
  unfold mapped_back in Hp'.
  destruct (inp2ref (estimate (rs_state w l) lf) (points lf) !! i) as [q |] eqn:Hq;
    [| done].
  cbn in Hp'. rewrite ref_shift_of_scale_zero, padd_zero, (Hround i q Hq), Hp in Hp'.
  congruence.
Qed.

Lemma Lambda_scale_zero_witness :
  exists new_lf df,
    (@Lambda_perform Toy.collaborators
       (mkLambda 0 (Lambda_specs Toy.lambda) 1%positive) (Toy.face 0) Toy.world1).1 =
      inr (new_lf, df) /\
    points new_lf = points (Toy.face 0).
Proof.
  apply (@Lambda_scale_zero Toy.collaborators (Lambda_specs Toy.lambda) 1%positive
           (Toy.face 0) Toy.world1).
  - reflexivity.
  - intros ps. apply length_map.
  - intros ps. apply length_map.
  - intros k v Hin.
    apply elem_of_cons in Hin as [Hin | Hin];
      [| apply list_elem_of_singleton in Hin]; injection Hin as -> ->.
    + exists 3. split; [reflexivity | lia].
    + exists 8. split; [reflexivity | lia].
  - generalize (@estimate Toy.collaborators
                  (@rs_state Toy.collaborators Toy.world1 1%positive) (Toy.face 0)).
    intros [a b] i q. cbn [inp2ref ref2inp Toy.collaborators].
    rewrite list_lookup_fmap.
    intros Hq. apply fmap_Some in Hq as ([x y] & Hp & ->).
    transitivity (Some ((x, y) : point)); [| symmetry; exact Hp].
    cbn. f_equal. unfold padd, psub. cbv [fst snd]. f_equal; lra.
Defined.

Lemma AbsoluteMove_perform_wraps `{Collaborators} (xs ys : dict Z R) (lf : Face) :
  face_wf lf ->
  (forall k, k ∈ dict_keys xs \/ k ∈ dict_keys ys -> -68 <= k <= 67) ->
  exists new_lf df, AbsoluteMove_perform (mkAbsoluteMove xs ys) lf = inr (new_lf, df).
Proof.
  intros Hlf Hkeys.
  assert (length (np_zeros 68) = 68%nat) as Hz by apply length_replicate.
  assert (exists offsets, AbsoluteMove_offsets (mkAbsoluteMove xs ys) = inr offsets)
    as [offsets Hoffs].
  { unfold AbsoluteMove_offsets. cbn [x_shifts y_shifts].
    change (for_items np_setitem_col0)
      with (for_items (np_setitem_with (fun v p => (v, p.2)))).
    change (for_items np_setitem_col1)
      with (for_items (np_setitem_with (fun v p => (p.1, v)))).
    destruct (for_items_setitem_wraps (fun v p => (v, p.2)) xs (np_zeros 68))
      as (o1 & -> & Hlen1).
    { intros k Hk. rewrite Hz. specialize (Hkeys k (or_introl Hk)). lia. }
    rewrite bind_inr.
    destruct (for_items_setitem_wraps (fun v p => (p.1, v)) ys o1) as (o2 & -> & Hlen2).
    { intros k Hk. rewrite Hlen1, Hz. specialize (Hkeys k (or_intror Hk)). lia. }
    by exists o2. }
  rewrite (AbsoluteMove_perform_offsets _ lf offsets Hlf Hoffs
             (AbsoluteMove_offsets_length _ _ Hoffs)).
  by eexists _, _.
Qed.

Lemma Lambda_loop_wraps `{Collaborators} scale rs (lf : Face) specs :
  face_wf lf ->
  shape_preserving (inp2ref rs) -> shape_preserving (ref2inp rs) ->
  (forall k v, (k, v) ∈ specs -> exists i, resolve_key k = inr i /\ -68 <= i <= 67) ->
  forall shifts,
  exists shifts',
    for_items (Lambda_step scale rs lf (inp2ref rs (points lf))) specs shifts = inr shifts'.
Proof.
  intros Hlf Hin Hout. induction specs as [|[k0 v0] specs IH]; intros Hres shifts.
  - by exists shifts.
  - rewrite for_items_cons.
    destruct (Hres k0 v0) as (i & Hk0 & Hi); [by apply elem_of_cons; left |].
    destruct (Lambda_step_wraps scale rs lf shifts k0 v0 i) as [shifts1 ->]; [done .. |].
    rewrite bind_inr. apply IH. intros k v Hkv. apply (Hres k v).
    by apply elem_of_cons; right.
Qed.

(** [Lambda.perform] returns a face exactly when every key of [specs]
    resolves (an integer, or a name of the table) to an index in -68..67;
    otherwise it raises.  The face has 68 landmarks and the reference space
    keeps the number of rows. *)
Theorem Lambda_perform_succeeds_iff `{Collaborators} (self : Lambda) (lf : Face)
    (w : World) :
  face_wf lf ->
  shape_preserving (inp2ref (estimate (rs_state w (Lambda_reference_space self)) lf)) ->
  shape_preserving (ref2inp (estimate (rs_state w (Lambda_reference_space self)) lf)) ->
  (exists new_lf df, (Lambda_perform self lf w).1 = inr (new_lf, df)) <->
  (forall k v, (k, v) ∈ Lambda_specs self ->
               exists i, resolve_key k = inr i /\ -68 <= i <= 67).
Proof.
  intros Hlf Hin Hout. rewrite Lambda_perform_result. unfold Lambda_shifts.
  set (rs := estimate (rs_state w (Lambda_reference_space self)) lf) in *.
  pose proof Hlf as Hlen. unfold face_wf in Hlen.
  split.
  - intros (new_lf & df & Hrun) k v Hkv.
    destruct (for_items (Lambda_step (Lambda_scale self) rs lf (inp2ref rs (points lf)))
                (Lambda_specs self) ([], [])) as [e | shifts] eqn:Hloop; [done |].
    destruct (for_items_inr_all _ _ _ _ Hloop k v Hkv) as (s0 & s1 & Hstep).
    apply Lambda_step_inr in Hstep as (key & _ & _ & Hkey & Hrange & _).
    exists key. split; [done |]. lia.
  - intros Hres.
    destruct (Lambda_loop_wraps (Lambda_scale self) rs lf (Lambda_specs self)
                Hlf Hin Hout Hres ([], [])) as [[xs ys] Hloop].
    rewrite Hloop.
    change (AbsoluteMove_init (Some xs) (Some ys)) with (mkAbsoluteMove xs ys).
    apply AbsoluteMove_perform_wraps; [done |].
    assert ((forall k, k ∈ dict_keys (xs, ys).1 -> -68 <= k <= 67) /\
            (forall k, k ∈ dict_keys (xs, ys).2 -> -68 <= k <= 67)) as [Hx Hy].
    { revert Hloop.
      apply (for_items_invariant
               (fun s : dict Z R * dict Z R =>
                  (forall k, k ∈ dict_keys s.1 -> -68 <= k <= 67) /\
                  (forall k, k ∈ dict_keys s.2 -> -68 <= k <= 67))).
      - intros s k v s' _ [Hsx Hsy] Hstep.
        apply Lambda_step_inr in Hstep as (key & sx & sy & _ & Hrange & ->).
        cbn [fst snd].
        split; intros k' Hk'; apply dict_keys_set in Hk' as [-> | Hk']; eauto; lia.
      - split; intros k Hk; by apply elem_of_nil in Hk. }
    intros k [Hk | Hk]; eauto.
Qed.

Lemma Lambda_perform_succeeds_iff_witness :
  exists new_lf df,
    (@Lambda_perform Toy.collaborators
       (mkLambda 1 [ (ByIndex (-1), (0, 1)%R) ] 1%positive) (Toy.face 0) Toy.world1).1 =
      inr (new_lf, df).
Proof.
  apply (@Lambda_perform_succeeds_iff Toy.collaborators
           (mkLambda 1 [ (ByIndex (-1), (0, 1)%R) ] 1%positive) (Toy.face 0) Toy.world1).
  - reflexivity.
  - intros ps. apply length_map.
  - intros ps. apply length_map.
  - intros k v Hin. apply list_elem_of_singleton in Hin. injection Hin as -> ->.
    exists (-1). split; [reflexivity | lia].
Defined.

(** ** LinearTransform *)




(** ** Preset actions *)

Lemma rs_state_new `{Collaborators} (w : World) :
  rs_state (rs_new w).2 (rs_new w).1 = DefaultRS.
Proof. unfold rs_state, rs_new. cbn. by rewrite lookup_insert_eq. Qed.

Lemma Lambda_default_world `{Collaborators} (scale : R) (specs : LandmarkSpec)
    (lf : Face) (w : World) :
  (Lambda_perform (Lambda_init scale specs None w).1 lf
     (Lambda_init scale specs None w).2).2 =
    mkWorld (<[(rs_new w).1 := estimate DefaultRS lf]> (rs_heap w))
            (estimate_log w ++ [((rs_new w).1, lf)]).
Proof.
  rewrite Lambda_perform_world.
  change (Lambda_init scale specs None w).2 with (rs_new w).2.
  change (Lambda_reference_space (Lambda_init scale specs None w).1) with (rs_new w).1.
  unfold rs_estimate. rewrite rs_state_new. unfold rs_new. cbn.
  by rewrite insert_insert_eq.
Qed.

Lemma Lambda_default_result `{Collaborators} (scale : R) (specs : LandmarkSpec)
    (lf : Face) (w : World) :
  (Lambda_perform (Lambda_init scale specs None w).1 lf
     (Lambda_init scale specs None w).2).1 =
    match Lambda_shifts scale specs (estimate DefaultRS lf) lf with
    | inl e => inl e
    | inr (xs, ys) => AbsoluteMove_perform (AbsoluteMove_init (Some xs) (Some ys)) lf
    end.
Proof.
  rewrite Lambda_perform_result.
  change (Lambda_init scale specs None w).2 with (rs_new w).2.
  change (Lambda_reference_space (Lambda_init scale specs None w).1) with (rs_new w).1.
  by rewrite rs_state_new.
Qed.

(** Each [perform] of a preset creates a reference space object of its own:
    a new default one, fitted once to the face.  The store afterwards is the
    one before with that object added: the objects that were there stay as
    they were. *)
Theorem presets_use_new_reference_space `{Collaborators} (scale : R) (lf : Face)
    (w : World) :
  exists l : positive,
    (l ∉ dom (rs_heap w)) /\
    (Chubbify_perform (mkChubbify scale) lf w).2 =
      mkWorld (<[l := estimate DefaultRS lf]> (rs_heap w)) (estimate_log w ++ [(l, lf)]) /\
    (OpenEyes_perform (mkOpenEyes scale) lf w).2 =
      mkWorld (<[l := estimate DefaultRS lf]> (rs_heap w)) (estimate_log w ++ [(l, lf)]) /\
    (Smile_perform (mkSmile scale) lf w).2 =
      mkWorld (<[l := estimate DefaultRS lf]> (rs_heap w)) (estimate_log w ++ [(l, lf)]).
Proof.
  exists (rs_new w).1. split; [apply rs_new_fresh |]. split; [| split].
  - apply (Lambda_default_world scale Chubbify_specs).
  - apply (Lambda_default_world scale OpenEyes_specs).
  - apply (Lambda_default_world scale Smile_specs).
Qed.

(** What a preset returns depends on its scale and on the face only, not on
    the reference space objects in the store. *)
Theorem presets_result_independent_of_store `{Collaborators} (scale : R) (lf : Face)
    (w w' : World) :
  (Chubbify_perform (mkChubbify scale) lf w).1 =
    (Chubbify_perform (mkChubbify scale) lf w').1 /\
  (OpenEyes_perform (mkOpenEyes scale) lf w).1 =
    (OpenEyes_perform (mkOpenEyes scale) lf w').1 /\
  (Smile_perform (mkSmile scale) lf w).1 = (Smile_perform (mkSmile scale) lf w').1.
Proof.
  split; [| split].
  - exact (eq_trans (Lambda_default_result scale Chubbify_specs lf w)
             (eq_sym (Lambda_default_result scale Chubbify_specs lf w'))).
  - exact (eq_trans (Lambda_default_result scale OpenEyes_specs lf w)
             (eq_sym (Lambda_default_result scale OpenEyes_specs lf w'))).
  - exact (eq_trans (Lambda_default_result scale Smile_specs lf w)
             (eq_sym (Lambda_default_result scale Smile_specs lf w'))).
Qed.

Lemma normalised_shift_norms (specs : LandmarkSpec) (scale : R) :
  proportions_normalised specs ->
  Forall (fun kv => (norm (ref_shift_of scale kv.2.1 kv.2.2) <= Rabs scale)%R) specs /\
  Exists (fun kv => norm (ref_shift_of scale kv.2.1 kv.2.2) = Rabs scale) specs.
Proof.
  intros [Hall Hex]. split.
  - eapply Forall_impl; [exact Hall |]. intros [k [angle prop]] Hprop. cbn in *.
    rewrite ref_shift_norm, Rabs_mult, (Rabs_pos_eq prop) by lra.
    pose proof (Rabs_pos scale). nra.
  - eapply Exists_impl; [exact Hex |]. intros [k [angle prop]] Hprop. cbn in *.
    subst prop. rewrite ref_shift_norm. f_equal. lra.
Qed.

(** In the three preset specs the proportions lie in 0..1 and the largest is
    1, so for a preset [scale] is indeed the norm of the largest reference
    space shift: no entry is shifted by more than [|scale|], and some entry
    by exactly [|scale|]. *)
Theorem presets_scale_is_largest_shift (scale : R) :
  forall specs,
    specs = Chubbify_specs \/ specs = OpenEyes_specs \/ specs = Smile_specs ->
    Forall (fun kv => (norm (ref_shift_of scale kv.2.1 kv.2.2) <= Rabs scale)%R) specs /\
    Exists (fun kv => norm (ref_shift_of scale kv.2.1 kv.2.2) = Rabs scale) specs.
Proof.
  intros specs Hspecs. apply normalised_shift_norms.
  destruct Hspecs as [-> | [-> | ->]]; split.
  - repeat (apply Forall_cons; split; [cbn; lra |]). apply Forall_nil_2.
  - do 2 apply Exists_cons_tl. apply Exists_cons_hd. reflexivity.
  - repeat (apply Forall_cons; split; [cbn; lra |]). apply Forall_nil_2.
  - apply Exists_cons_tl. apply Exists_cons_hd. reflexivity.
  - repeat (apply Forall_cons; split; [cbn; lra |]). apply Forall_nil_2.
  - apply Exists_cons_hd. reflexivity.
Qed.

Lemma presets_scale_is_largest_shift_witness :
  Exists (fun kv => norm (ref_shift_of 3 kv.2.1 kv.2.2) = Rabs 3) Smile_specs.
Proof.
  apply (proj2 (presets_scale_is_largest_shift 3 Smile_specs
                  (or_intror (or_intror eq_refl)))).
Defined.




(** ** The order of the entries *)

Lemma dict_get_Some_iff {K V} `{EqDecision K} (d : dict K V) (k : K) (v : V) :
  dict_wf d -> dict_get d k = Some v <-> (k, v) ∈ d.
Proof.
  induction d as [|[k0 v0] d IH]; intros Hwf.
  - cbn. split; [done | intros Hin; by apply elem_of_nil in Hin].
  - apply dict_wf_cons in Hwf as [Hk0 Hwf]. cbn [dict_get].
    rewrite elem_of_cons, <- (IH Hwf). destruct (decide (k = k0)) as [-> | Hne].
    + split.
      * intros [= ->]. by left.
      * intros [[= ->] | Hget]; [done |].
        exfalso. apply Hk0. by eapply dict_get_Some_key.
    + split; [by right | intros [[= ? ?] | ?]; done].
Qed.

Lemma dict_get_perm {K V} `{EqDecision K} (d d' : dict K V) (k : K) :
  dict_wf d -> d ≡ₚ d' -> dict_get d k = dict_get d' k.
Proof.
  intros Hwf Hperm.
  assert (dict_wf d') as Hwf'.
  { unfold dict_wf, dict_keys in *. by rewrite <- Hperm. }
  destruct (dict_get d k) as [v |] eqn:Hget.
  - symmetry. apply dict_get_Some_iff; [done |]. rewrite <- Hperm.
    by apply dict_get_Some_iff.
  - destruct (dict_get d' k) as [v' |] eqn:Hget'; [| done].
    apply dict_get_Some_iff in Hget'; [| done]. rewrite <- Hperm in Hget'.
    apply dict_get_Some_iff in Hget'; [| done]. congruence.
Qed.

Lemma AbsoluteMove_perform_ext `{Collaborators} (xs ys xs' ys' : dict Z R) (lf : Face) :
  face_wf lf ->
  dict_wf xs -> dict_wf ys -> keys_in_range xs -> keys_in_range ys ->
  dict_wf xs' -> dict_wf ys' -> keys_in_range xs' -> keys_in_range ys' ->
  (forall i : nat, shift_of xs i = shift_of xs' i /\ shift_of ys i = shift_of ys' i) ->
  AbsoluteMove_perform (mkAbsoluteMove xs ys) lf =
  AbsoluteMove_perform (mkAbsoluteMove xs' ys') lf.
Proof.
  intros Hlf Hwx Hwy Hx Hy Hwx' Hwy' Hx' Hy' Heq.
  destruct (AbsoluteMove_offsets_in_range xs ys) as (o & Ho & Hlen & Hget); [done .. |].
  destruct (AbsoluteMove_offsets_in_range xs' ys') as (o' & Ho' & Hlen' & Hget');
    [done .. |].
  rewrite (AbsoluteMove_perform_offsets _ lf o), (AbsoluteMove_perform_offsets _ lf o')
    by done.
  assert (o = o') as ->; [| done].
  apply list_eq_same_length with 68%nat; [done | done |].
  intros i p p' Hi Hp Hp'. rewrite (Hget i Hi) in Hp. rewrite (Hget' i Hi) in Hp'.
  destruct (Heq i) as [Hex Hey]. congruence.
Qed.

(** With keys in 0..67, the order in which the entries of the shift maps
    were inserted does not matter to [AbsoluteMove.perform]. *)
Theorem AbsoluteMove_order_irrelevant `{Collaborators} (xs ys xs' ys' : dict Z R)
    (lf : Face) :
  face_wf lf ->
  dict_wf xs -> dict_wf ys -> keys_in_range xs -> keys_in_range ys ->
  xs ≡ₚ xs' -> ys ≡ₚ ys' ->
  AbsoluteMove_perform (AbsoluteMove_init (Some xs) (Some ys)) lf =
  AbsoluteMove_perform (AbsoluteMove_init (Some xs') (Some ys')) lf.
Proof.
  intros Hlf Hwx Hwy Hx Hy Hpx Hpy.
  change (AbsoluteMove_init (Some xs) (Some ys)) with (mkAbsoluteMove xs ys).
  change (AbsoluteMove_init (Some xs') (Some ys')) with (mkAbsoluteMove xs' ys').
  apply AbsoluteMove_perform_ext; try done.
  - unfold dict_wf, dict_keys in *. by rewrite <- Hpx.
  - unfold dict_wf, dict_keys in *. by rewrite <- Hpy.
  - unfold keys_in_range, dict_keys in *. intros k Hk. rewrite <- Hpx in Hk. auto.
  - unfold keys_in_range, dict_keys in *. intros k Hk. rewrite <- Hpy in Hk. auto.
  - intros i. unfold shift_of.
    by rewrite (dict_get_perm xs xs'), (dict_get_perm ys ys').
Qed.

Lemma AbsoluteMove_order_irrelevant_witness :
  @AbsoluteMove_perform Toy.collaborators
    (AbsoluteMove_init (Some [(3, 2%R); (5, 1%R)]) (Some [])) (Toy.face 0) =
  @AbsoluteMove_perform Toy.collaborators
    (AbsoluteMove_init (Some [(5, 1%R); (3, 2%R)]) (Some [])) (Toy.face 0).
Proof.
  apply (@AbsoluteMove_order_irrelevant Toy.collaborators).
  - reflexivity.
  - apply NoDup_cons. split; [| apply NoDup_singleton].
    intros Hin. apply list_elem_of_singleton in Hin. discriminate Hin.
  - apply NoDup_nil_2.
  - intros k Hk. apply elem_of_cons in Hk as [-> | Hk]; [cbn; lia |].
    apply list_elem_of_singleton in Hk. cbn in Hk. lia.
  - intros k Hk. by apply elem_of_nil in Hk.
  - apply Permutation_swap.
  - reflexivity.
Defined.

Lemma Lambda_shifts_spec `{Collaborators} (scale : R) (specs : LandmarkSpec) (rs : RS)
    (lf : Face) :
  face_wf lf ->
  shape_preserving (inp2ref rs) -> shape_preserving (ref2inp rs) ->
  specs_resolve specs ->
  exists xs ys,
    Lambda_shifts scale specs rs lf = inr (xs, ys) /\
    dict_wf xs /\ dict_wf ys /\ keys_in_range xs /\ keys_in_range ys /\
    forall i : nat,
      shift_of xs i =
        default 0%R ('(angle, prop) ← entry_for specs (Z.of_nat i);
                     fst <$> spec_pixel_shift rs lf scale i angle prop) /\
      shift_of ys i =
        default 0%R ('(angle, prop) ← entry_for specs (Z.of_nat i);
                     snd <$> spec_pixel_shift rs lf scale i angle prop).
Proof.
  intros Hlf Hin Hout Hres. unfold Lambda_shifts.
  destruct (Lambda_loop scale rs lf specs Hlf Hin Hout Hres ([], []))
    as (xs & ys & Hrun & Hget).
  destruct (Lambda_loop_wf _ _ _ _ _ _ _ Hrun) as [Hwx Hwy].
  assert (forall i, is_Some (entry_for specs i) -> 0 <= i <= 67) as Hrange.
  { intros i [v Hv]. apply entry_for_Some in Hv as (k & Hk & Hi).
    destruct (Hres k v Hk) as (i' & Hi' & ?). congruence. }
  exists xs, ys. split; [done |]. split; [done |]. split; [done |].
  split; [| split].
  - intros k Hk. apply dict_get_is_Some in Hk. apply Hrange.
    destruct (Hget k) as [Hx _]. rewrite Hx in Hk.
    destruct (entry_for specs k); [by eexists | by destruct Hk].
  - intros k Hk. apply dict_get_is_Some in Hk. apply Hrange.
    destruct (Hget k) as [_ Hy]. rewrite Hy in Hk.
    destruct (entry_for specs k); [by eexists | by destruct Hk].
  - intros i. unfold shift_of. destruct (Hget (Z.of_nat i)) as [-> ->].
    rewrite Nat2Z.id. by destruct (entry_for specs (Z.of_nat i)) as [[angle prop] |].
Qed.

Lemma entry_for_perm `{Collaborators} (specs specs' : LandmarkSpec) (i : Z) :
  dict_wf specs -> specs ≡ₚ specs' ->
  (forall k v k' v', (k, v) ∈ specs -> (k', v') ∈ specs ->
     resolve_key k = inr i -> resolve_key k' = inr i -> k = k') ->
  entry_for specs i = entry_for specs' i.
Proof.
  intros Hwf Hperm Hdistinct.
  assert (dict_wf specs') as Hwf'.
  { unfold dict_wf, dict_keys in *. by rewrite <- Hperm. }
  destruct (entry_for specs i) as [v |] eqn:He.
  - apply entry_for_Some in He as (k & Hk & Hi). symmetry.
    apply (entry_for_unique specs' i k v); [done | by rewrite <- Hperm | done |].
    intros k' v' Hk' Hi'. rewrite <- Hperm in Hk'. symmetry. by eapply Hdistinct.
  - destruct (entry_for specs' i) as [v' |] eqn:He'; [| done].
    apply entry_for_Some in He' as (k' & Hk' & Hi'). rewrite <- Hperm in Hk'.
    destruct (entry_for_is_Some specs i k' v' Hk' Hi') as [v Hv]. congruence.
Qed.

(** When no two keys of [specs] resolve to the same landmark, the order in
    which the entries were inserted does not matter to [Lambda.perform]. *)
Theorem Lambda_order_irrelevant `{Collaborators} (scale : R) (specs specs' : LandmarkSpec)
    (l : positive) (lf : Face) (w : World) :
  face_wf lf ->
  shape_preserving (inp2ref (estimate (rs_state w l) lf)) ->
  shape_preserving (ref2inp (estimate (rs_state w l) lf)) ->
  dict_wf specs -> specs_resolve specs ->
  (forall k v k' v' i, (k, v) ∈ specs -> (k', v') ∈ specs ->
     resolve_key k = inr i -> resolve_key k' = inr i -> k = k') ->
  specs ≡ₚ specs' ->
  (Lambda_perform (mkLambda scale specs l) lf w).1 =
  (Lambda_perform (mkLambda scale specs' l) lf w).1.
Proof.
  intros Hlf Hin Hout Hwf Hres Hdistinct Hperm.
  rewrite !Lambda_perform_result.
  cbn [Lambda_scale Lambda_specs Lambda_reference_space].
  set (rs := estimate (rs_state w l) lf) in *.
  assert (specs_resolve specs') as Hres'.
  { intros k v Hk. rewrite <- Hperm in Hk. by eapply Hres. }
  destruct (Lambda_shifts_spec scale specs rs lf Hlf Hin Hout Hres)
    as (xs & ys & -> & Hwx & Hwy & Hkx & Hky & Hget).
  destruct (Lambda_shifts_spec scale specs' rs lf Hlf Hin Hout Hres')
    as (xs' & ys' & -> & Hwx' & Hwy' & Hkx' & Hky' & Hget').
  change (AbsoluteMove_init (Some xs) (Some ys)) with (mkAbsoluteMove xs ys).
  change (AbsoluteMove_init (Some xs') (Some ys')) with (mkAbsoluteMove xs' ys').
  apply AbsoluteMove_perform_ext; try done.
  intros i. destruct (Hget i) as [-> ->]. destruct (Hget' i) as [-> ->].
  rewrite (entry_for_perm specs specs' (Z.of_nat i) Hwf Hperm); [done |].
  intros k v k' v'. apply Hdistinct.
Qed.

Lemma Lambda_order_irrelevant_witness :
  (@Lambda_perform Toy.collaborators
     (mkLambda 1 [ (ByIndex 3, (0, 1)); (ByName "CHIN", (90, 1 / 2)) ]%R 1%positive)
     (Toy.face 0) Toy.world1).1 =
  (@Lambda_perform Toy.collaborators
     (mkLambda 1 [ (ByName "CHIN", (90, 1 / 2)); (ByIndex 3, (0, 1)) ]%R 1%positive)
     (Toy.face 0) Toy.world1).1.
Proof.
  apply (@Lambda_order_irrelevant Toy.collaborators).
  - reflexivity.
  - intros ps. apply length_map.
  - intros ps. apply length_map.
  - apply NoDup_cons. split; [| apply NoDup_singleton].
    intros Hin. apply list_elem_of_singleton in Hin. discriminate Hin.
  - intros k v Hin.
    apply elem_of_cons in Hin as [Hin | Hin];
      [| apply list_elem_of_singleton in Hin]; injection Hin as -> ->.
    + exists 3. split; [reflexivity | lia].
    + exists 8. split; [reflexivity | lia].
  - intros k v k' v' i Hk Hk' Hi Hi'.
    apply elem_of_cons in Hk as [Hk | Hk];
      [| apply list_elem_of_singleton in Hk]; injection Hk as -> ->;
      (apply elem_of_cons in Hk' as [Hk' | Hk'];
       [| apply list_elem_of_singleton in Hk']; injection Hk' as -> ->);
      try reflexivity; vm_compute in Hi; vm_compute in Hi'; congruence.
  - apply Permutation_swap.
Defined.
